(** * Movie recommendation system: catalog store, query layer and menu

    A shallow embedding of [movie_recommendation_system.py] and the
    properties of its specification.

    - [MovieRecommendationSystem.movies] is a list of rows; a row is a record
      with the five columns of the CSV file, which is what [csv.DictReader]
      yields for a table with the header of the sample table.
      [load_movies] coerces the [Rating] and [Year] cells in place, so a
      stored cell is either the text read from the file or the number that
      replaced it.  The query layer works on the rows of a successful load,
      whose cells are numbers.
    - Strings are ASCII: [str.lower] maps the letters A to Z, numerals are
      made of the digits 0 to 9, strings are ordered by character code.
      Integer numerals stay within the number of digits that [int]
      accepts.
    - Python floats are IEEE 754 binary64 values ([spec_float] of the
      standard library, precision 53, [emax] 1024), with their infinities,
      signed zeros and NaN: comparisons are [SFltb], [SFleb] and [SFeqb];
      [float(str)] and [round] are correctly rounded; [statistics.mean] sums
      the exact ratios of its data and converts the exact quotient to a
      float once.
    - [sorted], [max] and [min] compare keys with [<] only.  [sorted] is a
      stable insertion sort: every stable sort returns the same list when
      [<] is a strict weak order on the keys, which it is on strings,
      integers and floats other than NaN.
    - The file system is an environment that answers each [open]: the reply
      to a read is the table, a missing file, or another failure; the reply
      to a write is success or failure.  Console output is left out,
      except for what [main] displays: the input is the list of the lines
      typed, and a session yields the data displayed and the way it
      ends.
    - Exceptions are a result type.  The recursion of [load_movies] is
      bounded by the depth of the interpreter stack, after which
      [RecursionError] is raised; how much stack a call needs is not
      modelled further. *)

From Stdlib Require Import ZArith QArith Lia Bool Ascii String.
From Stdlib Require Import Floats.SpecFloat.
From Stdlib Require Import Sorting.Sorted Sorting.Permutation.
From Stdlib Require OrderedTypeEx.
From stdpp Require Import base list strings gmap sorting.

Local Open Scope string_scope.
Local Open Scope list_scope.
Local Open Scope Z_scope.

(** ** Exceptions *)

Inductive exn : Type :=
  | StatisticsError
  | ValueError
  | RecursionError.

Inductive result (A : Type) : Type :=
  | Return (a : A)
  | Raise (e : exn).
Arguments Return {A} a.
Arguments Raise {A} e.

Definition bind {A B : Type} (c : result A) (k : A -> result B) : result B :=
  match c with
  | Return a => k a
  | Raise e => Raise e
  end.

Notation "'let*' x := c 'in' k" := (bind c (fun x => k))
  (at level 10, x name, c at level 100, k at level 200).

(** ** Python strings *)

Module Str.

(** [str.lower] on the ASCII repertoire. *)
Definition lower_ascii (c : ascii) : ascii :=
  let n := N_of_ascii c in
  if ((65 <=? n) && (n <=? 90))%N then ascii_of_N (n + 32) else c.

Fixpoint lower (s : string) : string :=
  match s with
  | EmptyString => EmptyString
  | String c s' => String (lower_ascii c) (lower s')
  end.

(** Truth value of a string: empty is false. *)
Definition truthy (s : string) : bool :=
  match s with
  | EmptyString => false
  | String _ _ => true
  end.

(** Characters removed by [float] and [int] around a numeral: tab, line
    feed, vertical tab, form feed, carriage return and space. *)
Definition is_space (c : ascii) : bool :=
  let n := N_of_ascii c in
  (((9 <=? n) && (n <=? 13)) || (n =? 32))%N.

Definition is_digit (c : ascii) : bool :=
  let n := N_of_ascii c in ((48 <=? n) && (n <=? 57))%N.

Definition digit_val (c : ascii) : Z := Z.of_N (N_of_ascii c) - 48.

Fixpoint lstrip (l : list ascii) : list ascii :=
  match l with
  | c :: l' => if is_space c then lstrip l' else l
  | [] => []
  end.

Definition strip (l : list ascii) : list ascii :=
  rev (lstrip (rev (lstrip l))).

(** [digit (["_"] digit)*], after its first digit: the digits read so far
    are accumulated in [acc]; the result is the number read, the count of
    digits, and the rest of the input. *)
Fixpoint digits_tail (acc : Z) (cnt : nat) (l : list ascii)
  : Z * nat * list ascii :=
  match l with
  | c :: l' =>
      if is_digit c then digits_tail (10 * acc + digit_val c) (S cnt) l'
      else if Ascii.eqb c "_" then
        match l' with
        | d :: l'' =>
            if is_digit d
            then digits_tail (10 * acc + digit_val d) (S cnt) l''
            else (acc, cnt, l)
        | [] => (acc, cnt, l)
        end
      else (acc, cnt, l)
  | [] => (acc, cnt, l)
  end.

(** A [digitpart] continuing the number [acc]; [None] when the input does
    not start with a digit. *)
Definition digitpart (acc : Z) (l : list ascii)
  : option (Z * nat * list ascii) :=
  match l with
  | c :: l' =>
      if is_digit c then Some (digits_tail (10 * acc + digit_val c) 1 l')
      else None
  | [] => None
  end.

(** An optional sign: [true] for minus. *)
Definition sign (l : list ascii) : bool * list ascii :=
  match l with
  | c :: l' =>
      if Ascii.eqb c "-" then (true, l')
      else if Ascii.eqb c "+" then (false, l')
      else (false, l)
  | [] => (false, l)
  end.

End Str.

(** ** Python floats *)

Module Float.

Definition prec : Z := 53.
Definition emax : Z := 1024.

Definition nan : spec_float := S754_nan.
Definition inf (s : bool) : spec_float := S754_infinity s.

Definition ltb : spec_float -> spec_float -> bool := SFltb.
Definition leb : spec_float -> spec_float -> bool := SFleb.
Definition eqb : spec_float -> spec_float -> bool := SFeqb.

(** [x >= y] *)
Definition geb (x y : spec_float) : bool := leb y x.

Definition is_finite (x : spec_float) : bool :=
  match x with
  | S754_zero _ | S754_finite _ _ _ => true
  | S754_infinity _ | S754_nan => false
  end.

Definition is_nan (x : spec_float) : bool :=
  match x with
  | S754_nan => true
  | _ => false
  end.

(** Truth value of a float: [0.0] and [-0.0] are false, NaN is true. *)
Definition truthy (x : spec_float) : bool := negb (eqb x (S754_zero false)).

(** The float nearest to [p/q] with sign [s] (ties to even, overflow to
    infinity): the quotient of two integers, rounded once. *)
Definition of_ratio (s : bool) (p q : positive) : spec_float :=
  SFdiv prec emax (S754_finite s p 0) (S754_finite false q 0).

Definition of_Q (x : Q) : spec_float :=
  match Qnum x with
  | Z0 => S754_zero false
  | Zpos p => of_ratio false p (Qden x)
  | Zneg p => of_ratio true p (Qden x)
  end.

(** [float.as_integer_ratio]: the exact value of a finite float. *)
Definition to_Q (x : spec_float) : Q :=
  match x with
  | S754_finite s m e => (inject_Z (cond_Zopp s (Zpos m)) * 2 ^ e)%Q
  | _ => 0%Q
  end.

(** The integer nearest to [x], ties to the even one. *)
Definition round_half_even (x : Q) : Z :=
  let n := Qnum x in
  let d := Zpos (Qden x) in
  match (2 * (n mod d) ?= d) with
  | Lt => n / d
  | Gt => n / d + 1
  | Eq => if Z.even (n / d) then n / d else n / d + 1
  end.

(** [round(x, ndigits)] for [ndigits >= 0]: the decimal with [ndigits]
    places nearest to the exact value of [x] (ties to even), converted back
    to the nearest float; zeros, infinities and NaN round to themselves. *)
Definition round (x : spec_float) (ndigits : nat) : spec_float :=
  match x with
  | S754_finite s _ _ =>
      let scale := Z.to_pos (10 ^ Z.of_nat ndigits) in
      match round_half_even (to_Q (SFabs x) * inject_Z (Zpos scale)) with
      | Zpos k => of_ratio s k scale
      | _ => S754_zero s
      end
  | _ => x
  end.

(** The float nearest to [m * 10 ^ x], with sign [neg]. *)
Definition of_decimal (neg : bool) (m x : Z) : spec_float :=
  match m with
  | Zpos p =>
      if 0 <=? x then of_ratio neg (p * Z.to_pos (10 ^ x)) 1
      else of_ratio neg p (Z.to_pos (10 ^ (- x)))
  | _ => S754_zero neg
  end.

(** The optional exponent that ends a numeral whose digits are [m], [fd]
    of them after the point. *)
Definition exponent (neg : bool) (m : Z) (fd : nat) (l : list ascii)
  : option spec_float :=
  match l with
  | [] => Some (of_decimal neg m (- Z.of_nat fd))
  | c :: l1 =>
      if Ascii.eqb c "e" || Ascii.eqb c "E" then
        let '(eneg, l2) := Str.sign l1 in
        match Str.digitpart 0 l2 with
        | Some (x, _, []) =>
            Some (of_decimal neg m (cond_Zopp eneg x - Z.of_nat fd))
        | _ => None
        end
      else None
  end.

(** [number ::= [digitpart] "." digitpart | digitpart ["."]], followed by
    an optional exponent. *)
Definition number (neg : bool) (l : list ascii) : option spec_float :=
  match Str.digitpart 0 l with
  | Some (i, _, l2) =>
      match l2 with
      | c :: l3 =>
          if Ascii.eqb c "." then
            match Str.digitpart i l3 with
            | Some (m, fd, l4) => exponent neg m fd l4
            | None => exponent neg i 0 l3
            end
          else exponent neg i 0 l2
      | [] => exponent neg i 0 l2
      end
  | None =>
      match l with
      | c :: l3 =>
          if Ascii.eqb c "." then
            match Str.digitpart 0 l3 with
            | Some (m, fd, l4) => exponent neg m fd l4
            | None => None
            end
          else None
      | [] => None
      end
  end.

(** [float(s)] for a string: [None] stands for [ValueError]. *)
Definition of_string (s : string) : option spec_float :=
  let '(neg, l) := Str.sign (Str.strip (list_ascii_of_string s)) in
  let word := string_of_list_ascii (map Str.lower_ascii l) in
  if String.eqb word "inf" || String.eqb word "infinity" then Some (inf neg)
  else if String.eqb word "nan" then Some nan
  else number neg l.

(** A float literal of the source text. *)
Definition lit (s : string) : spec_float := default nan (of_string s).

(** [statistics.mean]: the exact sum of the data's integer ratios divided
    by their count and converted to a float; when some datum is infinite
    or NaN the result is the float sum of those data, divided by the
    count. *)
Definition mean (data : list spec_float) : result spec_float :=
  match data with
  | [] => Raise StatisticsError
  | _ :: _ =>
      let n := Z.of_nat (length data) in
      match List.filter (fun x => negb (is_finite x)) data with
      | [] =>
          let total := foldr Qplus 0%Q (map to_Q data) in
          Return (of_Q (Qred (total / inject_Z n)))
      | x :: xs =>
          let total := foldl (SFadd prec emax) x xs in
          Return (SFdiv prec emax total (of_Q (inject_Z n)))
      end
  end.

End Float.

(** ** Python integers *)

Module Int.

(** [int(s)] for a string, base 10: [None] stands for [ValueError]. *)
Definition of_string (s : string) : option Z :=
  let '(neg, l) := Str.sign (Str.strip (list_ascii_of_string s)) in
  match Str.digitpart 0 l with
  | Some (n, _, []) => Some (cond_Zopp neg n)
  | _ => None
  end.

Definition truthy (n : Z) : bool := negb (n =? 0).

End Int.

(** ** Generic library functions *)

(** [l[:n]] *)
Definition slice_to {A : Type} (l : list A) (n : Z) : list A :=
  if 0 <=? n then take (Z.to_nat n) l
  else take (length l - Z.to_nat (- n)) l.

Section Ordering.
Context {A K : Type}.
Variable lt : K -> K -> bool.
Variable key : A -> K.

(** [precedes reverse y x]: [y] is strictly before [x] in the requested
    order, ascending by key, or descending when [reverse] is set. *)
Definition precedes (reverse : bool) (y x : A) : bool :=
  if reverse then lt (key x) (key y) else lt (key y) (key x).

(** [sorted(l, key=key, reverse=reverse)]: a stable sort that compares
    keys with [<] only.  An element is inserted in front of the sorted
    rest of the list, after the elements that strictly precede it. *)
Fixpoint insort (reverse : bool) (x : A) (l : list A) : list A :=
  match l with
  | [] => [x]
  | y :: l' =>
      if precedes reverse y x then y :: insort reverse x l' else x :: l
  end.

Definition sorted (reverse : bool) (l : list A) : list A :=
  foldr (insort reverse) [] l.

(** [max(l, key=key)]: the running maximum is replaced only by an item
    whose key is strictly greater, so the first maximal item wins. *)
Fixpoint max_from (best : A) (l : list A) : A :=
  match l with
  | [] => best
  | x :: l' =>
      if lt (key best) (key x) then max_from x l' else max_from best l'
  end.

Definition py_max (l : list A) : result A :=
  match l with
  | [] => Raise ValueError
  | x :: l' => Return (max_from x l')
  end.

(** [min(l, key=key)] *)
Fixpoint min_from (best : A) (l : list A) : A :=
  match l with
  | [] => best
  | x :: l' =>
      if lt (key x) (key best) then min_from x l' else min_from best l'
  end.

Definition py_min (l : list A) : result A :=
  match l with
  | [] => Raise ValueError
  | x :: l' => Return (min_from x l')
  end.

End Ordering.

(** An optional value that is present and true: the test
    ['key' in d and d['key']] on a dictionary, and the truth value of an
    argument that defaults to [None]. *)
Definition given {A : Type} (truthy : A -> bool) (o : option A) : option A :=
  match o with
  | Some v => if truthy v then Some v else None
  | None => None
  end.

(** A dictionary that remembers insertion order: [d[k] = v]. *)
Fixpoint dict_set {V : Type} (k : string) (v : V) (d : list (string * V))
  : list (string * V) :=
  match d with
  | [] => [(k, v)]
  | (k', v') :: d' =>
      if String.eqb k' k then (k', v) :: d' else (k', v') :: dict_set k v d'
  end.

(** ** Rows *)

(** One row of the table, with the rating and year cells of type [R] and
    [Y]. *)
Record Row (R Y : Type) : Type := mkRow {
  Title : string;
  Genre : string;
  Rating : R;
  Year : Y;
  Director : string
}.
Arguments mkRow {R Y} _ _ _ _ _.
Arguments Title {R Y} _.
Arguments Genre {R Y} _.
Arguments Rating {R Y} _.
Arguments Year {R Y} _.
Arguments Director {R Y} _.

(** A cell that [load_movies] coerces in place: the text read from the
    file, or the number it was replaced by. *)
Inductive cell (A : Type) : Type :=
  | Text (s : string)
  | Num (a : A).
Arguments Text {A} s.
Arguments Num {A} a.

(** A row as [csv.DictReader] yields it. *)
Abbreviation CsvRow := (Row string string).
(** A row of [self.movies]. *)
Abbreviation StoredRow := (Row (cell spec_float) (cell Z)).
(** A row of [self.movies] after a successful load. *)
Abbreviation Movie := (Row spec_float Z).

Definition store (r : CsvRow) : StoredRow :=
  mkRow (Title r) (Genre r) (Text (Rating r)) (Text (Year r)) (Director r).

Definition movie_of (r : StoredRow) : option Movie :=
  match Rating r, Year r with
  | Num f, Num y => Some (mkRow (Title r) (Genre r) f y (Director r))
  | _, _ => None
  end.

(** The typed view of [self.movies]: defined when every row is coerced. *)
Fixpoint catalog (movies : list StoredRow) : option (list Movie) :=
  match movies with
  | [] => Some []
  | r :: rest =>
      match movie_of r, catalog rest with
      | Some m, Some ms => Some (m :: ms)
      | _, _ => None
      end
  end.

(** ** Catalog store *)

Module Store.

(** The table [create_sample_csv] writes: a header and 25 rows. *)
Definition sample_movies : list (list string) :=
  [ ["Title"; "Genre"; "Rating"; "Year"; "Director"];
    ["The Shawshank Redemption"; "Drama"; "9.3"; "1994"; "Frank Darabont"];
    ["The Godfather"; "Crime"; "9.2"; "1972"; "Francis Ford Coppola"];
    ["The Dark Knight"; "Action"; "9.0"; "2008"; "Christopher Nolan"];
    ["Pulp Fiction"; "Crime"; "8.9"; "1994"; "Quentin Tarantino"];
    ["Forrest Gump"; "Drama"; "8.8"; "1994"; "Robert Zemeckis"];
    ["Inception"; "Sci-Fi"; "8.8"; "2010"; "Christopher Nolan"];
    ["The Matrix"; "Sci-Fi"; "8.7"; "1999"; "Wachowski Brothers"];
    ["Goodfellas"; "Crime"; "8.7"; "1990"; "Martin Scorsese"];
    ["The Silence of the Lambs"; "Thriller"; "8.6"; "1991"; "Jonathan Demme"];
    ["Saving Private Ryan"; "War"; "8.6"; "1998"; "Steven Spielberg"];
    ["Spirited Away"; "Animation"; "8.6"; "2001"; "Hayao Miyazaki"];
    ["The Green Mile"; "Drama"; "8.6"; "1999"; "Frank Darabont"];
    ["Interstellar"; "Sci-Fi"; "8.6"; "2014"; "Christopher Nolan"];
    ["Parasite"; "Thriller"; "8.5"; "2019"; "Bong Joon-ho"];
    ["The Lion King"; "Animation"; "8.5"; "1994"; "Roger Allers"];
    ["Back to the Future"; "Sci-Fi"; "8.5"; "1985"; "Robert Zemeckis"];
    ["The Prestige"; "Mystery"; "8.5"; "2006"; "Christopher Nolan"];
    ["Whiplash"; "Drama"; "8.5"; "2014"; "Damien Chazelle"];
    ["The Usual Suspects"; "Crime"; "8.5"; "1995"; "Bryan Singer"];
    ["Toy Story"; "Animation"; "8.3"; "1995"; "John Lasseter"];
    ["Joker"; "Crime"; "8.4"; "2019"; "Todd Phillips"];
    ["Avengers: Endgame"; "Action"; "8.4"; "2019"; "Russo Brothers"];
    ["Spider-Man: Into the Spider-Verse"; "Animation"; "8.4"; "2018";
     "Peter Ramsey"];
    ["The Departed"; "Crime"; "8.5"; "2006"; "Martin Scorsese"];
    ["Gladiator"; "Action"; "8.5"; "2000"; "Ridley Scott"] ].

(** What [csv.DictReader] yields for a table whose header is the one of
    [sample_movies] and whose rows have five fields. *)
Definition dict_row (fields : list string) : option CsvRow :=
  match fields with
  | [t; g; r; y; d] => Some (mkRow t g r y d)
  | _ => None
  end.

Definition dict_rows (table : list (list string)) : list CsvRow :=
  omap dict_row (tail table).

(** *** The file system *)

(** The reply to [open(self.csv_file, 'r')] and the reading that
    follows. *)
Inductive read_reply : Type :=
  | NoSuchFile                       (* FileNotFoundError *)
  | ReadFailure                      (* any other exception *)
  | Table (rows : list CsvRow).

Inductive fs_op : Type :=
  | OpenRead
  | WriteTable (table : list (list string)).

(** The environment: the replies to the reads and to the writes still to
    come, in order, and the operations performed so far.  When the
    replies run out the operation fails. *)
Record World : Type := mkWorld {
  reads : list read_reply;
  writes : list bool;
  trace : list fs_op
}.

Definition open_read (w : World) : read_reply * World :=
  match reads w with
  | r :: rs => (r, mkWorld rs (writes w) (trace w ++ [OpenRead]))
  | [] => (ReadFailure, mkWorld [] (writes w) (trace w ++ [OpenRead]))
  end.

Definition open_write (table : list (list string)) (w : World)
  : bool * World :=
  match writes w with
  | b :: bs => (b, mkWorld (reads w) bs (trace w ++ [WriteTable table]))
  | [] => (false, mkWorld (reads w) [] (trace w ++ [WriteTable table]))
  end.

Definition count_reads (tr : list fs_op) : nat :=
  length (List.filter (fun o => match o with OpenRead => true | _ => false end) tr).

Definition count_writes (tr : list fs_op) : nat :=
  length (List.filter (fun o => match o with WriteTable _ => true | _ => false end) tr).

(** *** [create_sample_csv] *)

Definition create_sample_csv (w : World) : bool * World :=
  open_write sample_movies w.

(** *** [load_movies] *)

(** [float(movie['Rating'])] and [int(movie['Year'])] *)
Definition float_cell (c : cell spec_float) : option spec_float :=
  match c with
  | Text s => Float.of_string s
  | Num f => Some f
  end.

Definition int_cell (c : cell Z) : option Z :=
  match c with
  | Text s => Int.of_string s
  | Num y => Some y
  end.

(** The coercion loop over [self.movies]: rows are updated in place, so
    when a conversion raises, the rows already converted stay converted,
    the failing row keeps what was assigned to it, and the rest is
    untouched.  The flag tells whether the loop ran to its end. *)
Fixpoint coerce (movies : list StoredRow) : bool * list StoredRow :=
  match movies with
  | [] => (true, [])
  | movie :: rest =>
      match float_cell (Rating movie) with
      | None => (false, movie :: rest)
      | Some f =>
          let movie1 :=
            mkRow (Title movie) (Genre movie) (Num f) (Year movie)
                  (Director movie) in
          match int_cell (Year movie1) with
          | None => (false, movie1 :: rest)
          | Some y =>
              let movie2 :=
                mkRow (Title movie1) (Genre movie1) (Rating movie1) (Num y)
                      (Director movie1) in
              let '(ok, rest') := coerce rest in
              (ok, movie2 :: rest')
          end
      end
  end.

(** [load_movies], on the environment [w] and the record list [movies]
    of the instance; [depth] is the number of nested calls the
    interpreter stack still admits. *)
Fixpoint load_movies (depth : nat) (w : World) (movies : list StoredRow)
  : result bool * World * list StoredRow :=
  match depth with
  | O => (Raise RecursionError, w, movies)
  | S depth' =>
      let '(reply, w1) := open_read w in
      match reply with
      | Table rows =>
          let '(ok, movies1) := coerce (map store rows) in
          (Return ok, w1, movies1)
      | NoSuchFile =>
          let '(created, w2) := create_sample_csv w1 in
          if created then load_movies depth' w2 movies
          else (Return false, w2, movies)
      | ReadFailure => (Return false, w1, movies)
      end
  end.

End Store.

(** ** Query layer *)

Definition get_unique_genres (movies : list Movie) : list string :=
  let genres : gset string := list_to_set (map Genre movies) in
  sorted String.ltb id false (elements genres).

Definition filter_by_genre (movies : list Movie) (genre : string)
  : list Movie :=
  List.filter (fun m => String.eqb (Str.lower (Genre m)) (Str.lower genre))
              movies.

Definition filter_by_year_range (movies : list Movie) (start_year end_year : Z)
  : list Movie :=
  List.filter (fun m => (start_year <=? Year m) && (Year m <=? end_year))
              movies.

Definition filter_by_min_rating (movies : list Movie) (min_rating : spec_float)
  : list Movie :=
  List.filter (fun m => Float.geb (Rating m) min_rating) movies.

Definition get_top_movies (movies : list Movie) (n : Z) (genre : option string)
  : list Movie :=
  let movies_to_sort :=
    match given Str.truthy genre with
    | None => movies
    | Some g => filter_by_genre movies g
    end in
  let sorted_movies := sorted Float.ltb Rating true movies_to_sort in
  slice_to sorted_movies n.

(** The preferences dictionary: each key is present or absent. *)
Record Preferences : Type := mkPreferences {
  genre : option string;
  min_rating : option spec_float;
  year_from : option Z;
  year_to : option Z
}.

Definition recommend_movies (movies : list Movie) (preferences : Preferences)
  : list Movie :=
  let filtered_movies := movies in
  let filtered_movies :=
    match given Str.truthy (genre preferences) with
    | Some g =>
        List.filter
          (fun m => String.eqb (Str.lower (Genre m)) (Str.lower g))
          filtered_movies
    | None => filtered_movies
    end in
  let filtered_movies :=
    match given Float.truthy (min_rating preferences) with
    | Some r => List.filter (fun m => Float.geb (Rating m) r) filtered_movies
    | None => filtered_movies
    end in
  let filtered_movies :=
    match given Int.truthy (year_from preferences) with
    | Some y => List.filter (fun m => Year m >=? y) filtered_movies
    | None => filtered_movies
    end in
  let filtered_movies :=
    match given Int.truthy (year_to preferences) with
    | Some y => List.filter (fun m => Year m <=? y) filtered_movies
    | None => filtered_movies
    end in
  let sorted_movies := sorted Float.ltb Rating true filtered_movies in
  slice_to sorted_movies 5.

Record GenreStats : Type := mkGenreStats {
  count : nat;
  avg_rating : spec_float
}.

Record Statistics : Type := mkStatistics {
  total_movies : nat;
  average_rating : spec_float;
  highest_rated : Movie;
  lowest_rated : Movie;
  genre_statistics : list (string * GenreStats);
  oldest_movie : Movie;
  newest_movie : Movie
}.

(** The loop of [get_statistics] over the unique genres, filling
    [genre_stats]. *)
Fixpoint genre_loop (movies : list Movie) (genres : list string)
    (genre_stats : list (string * GenreStats))
  : result (list (string * GenreStats)) :=
  match genres with
  | [] => Return genre_stats
  | genre :: rest =>
      let genre_movies := filter_by_genre movies genre in
      match genre_movies with
      | [] => genre_loop movies rest genre_stats
      | _ :: _ =>
          let genre_ratings := map Rating genre_movies in
          let* mean := Float.mean genre_ratings in
          genre_loop movies rest
            (dict_set genre
               (mkGenreStats (length genre_movies) (Float.round mean 2))
               genre_stats)
      end
  end.

Definition get_statistics (movies : list Movie) : result Statistics :=
  let ratings := map Rating movies in
  let total := length movies in
  let* mean := Float.mean ratings in
  let average := Float.round mean 2 in
  let* highest := py_max Float.ltb Rating movies in
  let* lowest := py_min Float.ltb Rating movies in
  let* genre_stats := genre_loop movies (get_unique_genres movies) [] in
  let* oldest := py_min Z.ltb Year movies in
  let* newest := py_max Z.ltb Year movies in
  Return (mkStatistics total average highest lowest genre_stats oldest newest).

(** ** The interactive session *)

(** [main], on the lines that [input] reads one after the other.  What is
    kept of the console output is which records, statistics or genre
    counts are displayed and which answer is rejected; prompts, titles and
    the text of the displays are left out, and the console is taken to
    accept every character printed. *)

Module Session.

(** Characters removed by [str.strip]. *)
Definition is_blank (c : ascii) : bool :=
  let n := N_of_ascii c in
  (((9 <=? n) && (n <=? 13)) || ((28 <=? n) && (n <=? 32)))%N.

Fixpoint lstrip (l : list ascii) : list ascii :=
  match l with
  | c :: l' => if is_blank c then lstrip l' else l
  | [] => []
  end.

(** [s.strip()] *)
Definition strip (s : string) : string :=
  string_of_list_ascii (rev (lstrip (rev (lstrip (list_ascii_of_string s))))).

Inductive event : Type :=
  | DisplayMovies (movies : list Movie)       (* display_movies *)
  | DisplayStatistics (stats : Statistics)    (* display_statistics *)
  | ListGenres (counts : list (string * nat)) (* the lines of choice 7 *)
  | InvalidNumber                             (* an unparsable year or rating *)
  | InvalidChoice
  | Goodbye
  | LoadFailed.

(** How [main] ends: it returns, after choice 8 or a failed load, or an
    exception that nothing catches ends it: [EOFError] when [input] finds
    no line, or an exception of the class. *)
Inductive ending : Type :=
  | Returned
  | EndOfInput
  | Uncaught (e : exn).

Definition emit (e : event) (r : list event * ending) : list event * ending :=
  (e :: r.1, r.2).

(** A numeric answer of choice 4: a blank answer leaves the key out, a
    numeral sets it, anything else is rejected and leaves it out. *)
Definition answer {A : Type} (parse : string -> option A) (line : string)
  : option A * list event :=
  let text := strip line in
  if Str.truthy text then
    match parse text with
    | Some v => (Some v, [])
    | None => (None, [InvalidNumber])
    end
  else (None, []).

(** The lines of choice 7: each genre with [len(filter_by_genre(genre))]. *)
Definition genre_counts (movies : list Movie) : list (string * nat) :=
  map (fun genre => (genre, length (filter_by_genre movies genre)))
      (get_unique_genres movies).

(** The [while True] loop of [main] on the lines still to be read. *)
Fixpoint menu (movies : list Movie) (inputs : list string)
  : list event * ending :=
  match inputs with
  | [] => ([], EndOfInput)
  | line :: rest =>
      let choice := strip line in
      if String.eqb choice "1" then
        match rest with
        | [] => ([], EndOfInput)
        | genre :: rest =>
            emit (DisplayMovies (filter_by_genre movies (strip genre)))
                 (menu movies rest)
        end
      else if String.eqb choice "2" then
        match rest with
        | [] => ([], EndOfInput)
        | start :: rest =>
            match Int.of_string (strip start) with
            | None => emit InvalidNumber (menu movies rest)
            | Some start_year =>
                match rest with
                | [] => ([], EndOfInput)
                | end_ :: rest =>
                    match Int.of_string (strip end_) with
                    | None => emit InvalidNumber (menu movies rest)
                    | Some end_year =>
                        emit (DisplayMovies
                                (filter_by_year_range movies start_year
                                                      end_year))
                             (menu movies rest)
                    end
                end
            end
        end
      else if String.eqb choice "3" then
        match rest with
        | [] => ([], EndOfInput)
        | rating :: rest =>
            match Float.of_string (strip rating) with
            | None => emit InvalidNumber (menu movies rest)
            | Some min_rating =>
                emit (DisplayMovies (filter_by_min_rating movies min_rating))
                     (menu movies rest)
            end
        end
      else if String.eqb choice "4" then
        match rest with
        | [] => ([], EndOfInput)
        | genre_input :: rest =>
            match rest with
            | [] => ([], EndOfInput)
            | rating_input :: rest =>
                let '(rating, e1) := answer Float.of_string rating_input in
                match rest with
                | [] => (e1, EndOfInput)
                | year_from :: rest =>
                    let '(from, e2) := answer Int.of_string year_from in
                    match rest with
                    | [] => (e1 ++ e2, EndOfInput)
                    | year_to :: rest =>
                        let '(to, e3) := answer Int.of_string year_to in
                        let preferences :=
                          mkPreferences
                            (if Str.truthy (strip genre_input)
                             then Some (strip genre_input) else None)
                            rating from to in
                        let r := menu movies rest in
                        (e1 ++ e2 ++ e3
                           ++ DisplayMovies
                                (recommend_movies movies preferences) :: r.1,
                         r.2)
                    end
                end
            end
        end
      else if String.eqb choice "5" then
        match rest with
        | [] => ([], EndOfInput)
        | sub :: rest =>
            let sub_choice := strip sub in
            if String.eqb sub_choice "1" then
              emit (DisplayMovies (get_top_movies movies 5 None))
                   (menu movies rest)
            else if String.eqb sub_choice "2" then
              match rest with
              | [] => ([], EndOfInput)
              | genre :: rest =>
                  emit (DisplayMovies
                          (get_top_movies movies 5 (Some (strip genre))))
                       (menu movies rest)
              end
            else emit InvalidChoice (menu movies rest)
        end
      else if String.eqb choice "6" then
        match get_statistics movies with
        | Return stats => emit (DisplayStatistics stats) (menu movies rest)
        | Raise e => ([], Uncaught e)
        end
      else if String.eqb choice "7" then
        emit (ListGenres (genre_counts movies)) (menu movies rest)
      else if String.eqb choice "8" then ([Goodbye], Returned)
      else emit InvalidChoice (menu movies rest)
  end.

(** [main]: load, then the menu on the loaded records.  A load that
    returns [True] leaves a list whose cells are all numbers, so the
    records have a typed view. *)
Definition main (depth : nat) (w : Store.World) (inputs : list string)
  : Store.World * list event * ending :=
  let '(loaded, w', movies) := Store.load_movies depth w [] in
  match loaded with
  | Return true =>
      match catalog movies with
      | Some records => (w', (menu records inputs).1, (menu records inputs).2)
      | None => (w', [], Uncaught ValueError)
      end
  | Return false => (w', [LoadFailed], Returned)
  | Raise e => (w', [], Uncaught e)
  end.

End Session.

(** * Specifications

    The vocabulary of the properties below, and the concrete catalogs,
    preferences and environments they are evaluated on. *)

Import Store.

(** ** The order of floats *)

Module FloatOrder.

(** Floats other than NaN are ordered like the triples of their class
    (negative infinity, negative, zero, positive, positive infinity),
    signed exponent and signed mantissa. *)
Definition rank (x : spec_float) : Z * Z * Z :=
  match x with
  | S754_nan => (0, 0, 0)
  | S754_zero _ => (0, 0, 0)
  | S754_infinity true => (-2, 0, 0)
  | S754_infinity false => (2, 0, 0)
  | S754_finite true m e => (-1, - e, Zneg m)
  | S754_finite false m e => (1, e, Zpos m)
  end.

Definition lex_compare (a b : Z * Z * Z) : comparison :=
  match a.1.1 ?= b.1.1 with
  | Eq => match a.1.2 ?= b.1.2 with
          | Eq => a.2 ?= b.2
          | c => c
          end
  | c => c
  end.

Definition lex_lt (a b : Z * Z * Z) : Prop :=
  a.1.1 < b.1.1 \/
  (a.1.1 = b.1.1 /\ (a.1.2 < b.1.2 \/ (a.1.2 = b.1.2 /\ a.2 < b.2))).

Definition comparable (x : spec_float) : Prop := Float.is_nan x = false.

End FloatOrder.

(** ** [sorted], [max] and [min] *)

Section InOrder.
Context {A K : Type}.
Variable lt : K -> K -> bool.
Variable key : A -> K.

(** An item of the result never strictly precedes an item before it. *)
Definition in_order (reverse : bool) (x y : A) : Prop :=
  precedes lt key reverse y x = false.

End InOrder.

(** ** The sample catalog *)

(** The catalog that [load_movies] builds from the sample table. *)
Definition seed : list Movie :=
  default [] (catalog (coerce (map store (dict_rows sample_movies))).2).

(** ** Catalogs whose ratings are numbers *)

(** The rating of a record is a number: every float but NaN. *)
Definition rated (m : Movie) : Prop := Float.is_nan (Rating m) = false.

(** Descending order of rating. *)
Definition descending (l : list Movie) : Prop :=
  StronglySorted (fun a b => Float.geb (Rating a) (Rating b) = true) l.

(** ** Top movies *)

(** The records [get_top_movies] ranks: those of the genre, when a
    non-empty genre is given, and all of them otherwise. *)
Definition scoped (movies : list Movie) (genre : option string)
  : list Movie :=
  match genre with
  | Some (String c g) => filter_by_genre movies (String c g)
  | _ => movies
  end.

(** A record without a genre next to one with a genre. *)
Definition one_untagged : list Movie :=
  [ mkRow "Untitled" "" (Float.lit "6.0") 2020 "Unknown";
    mkRow "Whiplash" "Drama" (Float.lit "8.5") 2014 "Damien Chazelle" ].

(** ** Statistics *)

(** The first record of the catalog whose rating is [r]. *)
Definition first_rated (r : spec_float) (movies : list Movie) : option Movie :=
  List.find (fun x => Float.eqb (Rating x) r) movies.

(** The first record of the catalog whose year is [y]. *)
Definition first_of_year (y : Z) (movies : list Movie) : option Movie :=
  List.find (fun x => Year x =? y) movies.

(** ** Genres *)

(** Strictly ascending lexicographic order. *)
Definition ascending (l : list string) : Prop :=
  StronglySorted (fun a b => (a <? b)%string = true) l.

(** ** Statistics by genre *)

(** What [get_statistics] records for the key [g]: the number of records
    whose genre is [g] up to letter case, and the rounded mean of their
    ratings. *)
Definition genre_entry (movies : list Movie) (g : string) (gs : GenreStats)
  : Prop :=
  let matching :=
    List.filter (fun m => String.eqb (Str.lower (Genre m)) (Str.lower g))
                movies in
  count gs = length matching /\
  exists mean,
    Float.mean (map Rating matching) = Return mean /\
    avg_rating gs = Float.round mean 2.

Definition sum_counts (d : list (string * GenreStats)) : nat :=
  foldr (fun e n => (count e.2 + n)%nat) 0%nat d.

(** Two spellings of one genre. *)
Definition two_spellings : list Movie :=
  [ mkRow "Whiplash" "Drama" (Float.lit "8.5") 2014 "Damien Chazelle";
    mkRow "Forrest Gump" "drama" (Float.lit "8.8") 1994 "Robert Zemeckis" ].

(** ** Recommendations *)

(** A record rated below zero, and preferences whose only key is
    [min_rating], with value [0.0]. *)
Definition flop : Movie :=
  mkRow "Flop" "Drama" (Float.lit "-1.0") 1994 "Nobody".

Definition at_least_zero : Preferences :=
  mkPreferences None (Some (Float.lit "0.0")) None None.

(** Preferences whose only key is [year_to], with value [0]. *)
Definition up_to_year_zero : Preferences :=
  mkPreferences None None None (Some 0).

(** A preference applies when its key is present and its value is true in
    the sense of the language: a non-empty genre, a rating or a year other
    than zero. *)
Definition applies_genre (p : Preferences) (g : string) : Prop :=
  genre p = Some g /\ g <> "".
Definition applies_min_rating (p : Preferences) (r : spec_float) : Prop :=
  min_rating p = Some r /\ Float.eqb r (S754_zero false) = false.
Definition applies_year_from (p : Preferences) (y : Z) : Prop :=
  year_from p = Some y /\ y <> 0.
Definition applies_year_to (p : Preferences) (y : Z) : Prop :=
  year_to p = Some y /\ y <> 0.

(** The constraint of one preference on a record: [test] when the key is
    present with a true value, none otherwise. *)
Definition constraint {B : Type} (truthy : B -> bool)
    (test : B -> Movie -> bool) (o : option B) (m : Movie) : bool :=
  match o with
  | Some v => if truthy v then test v m else true
  | None => true
  end.

(** The conjunction of the four constraints. *)
Definition meets (p : Preferences) (m : Movie) : bool :=
  constraint Str.truthy
    (fun g m => String.eqb (Str.lower (Genre m)) (Str.lower g)) (genre p) m
  && constraint Float.truthy
       (fun r m => Float.geb (Rating m) r) (min_rating p) m
  && constraint Int.truthy (fun y m => y <=? Year m) (year_from p) m
  && constraint Int.truthy (fun y m => Year m <=? y) (year_to p) m.

(** ** Loading *)

(** Both coercions of a row succeed. *)
Definition coercible (r : CsvRow) : bool :=
  match Float.of_string (Rating r), Int.of_string (Year r) with
  | Some _, Some _ => true
  | _, _ => false
  end.

(** A row after both assignments of the loop body. *)
Definition coerced (r : CsvRow) : StoredRow :=
  mkRow (Title r) (Genre r)
        (match Float.of_string (Rating r) with
         | Some f => Num f
         | None => Text (Rating r)
         end)
        (match Int.of_string (Year r) with
         | Some y => Num y
         | None => Text (Year r)
         end)
        (Director r).

(** The row on which the loop stops: the rating is replaced when its
    conversion succeeds (it is then the year that fails); the year is
    left as read. *)
Definition interrupted (r : CsvRow) : StoredRow :=
  mkRow (Title r) (Genre r)
        (match Float.of_string (Rating r) with
         | Some f => Num f
         | None => Text (Rating r)
         end)
        (Text (Year r))
        (Director r).

(** A table of two rows, the second with a rating that is no number. *)
Definition unrated_table : list CsvRow :=
  [ mkRow "The Godfather" "Crime" "9.2" "1972" "Francis Ford Coppola";
    mkRow "Untitled" "Drama" "N/A" "2024" "Unknown" ].

(** ** Missing file *)

(** The file is missing at the first two reads, although the first
    bootstrap succeeds; the second bootstrap succeeds too, and the third
    read finds the sample table. *)
Definition missing_twice : World :=
  mkWorld [NoSuchFile; NoSuchFile; Table (dict_rows sample_movies)]
          [true; true] [].

(** One missing-file condition followed by a bootstrap. *)
Definition bootstrap_round : list fs_op :=
  [OpenRead; WriteTable sample_movies].

(** ** The average rating *)

(** The arithmetic mean of the ratings, as a rational number. *)
Definition exact_mean (movies : list Movie) : Q :=
  (foldr Qplus 0 (map Float.to_Q (map Rating movies))
   / inject_Z (Z.of_nat (length movies)))%Q.

(** The integer nearest to [x], ties away from zero. *)
Definition round_half_away (x : Q) : Z :=
  let n := Qnum x in
  let d := Zpos (Qden x) in
  if 0 <=? n then (2 * n + d) / (2 * d) else - ((2 * - n + d) / (2 * d)).

(** The float nearest to [q] rounded to two decimal places by [rule]. *)
Definition to_two_places (rule : Q -> Z) (q : Q) : spec_float :=
  Float.of_Q (inject_Z (rule (q * 100)%Q) / 100)%Q.

Definition rate (r : string) : Movie :=
  mkRow "A title" "Drama" (Float.lit r) 2000 "A director".

(** Four records rated 7.0, 7.0, 8.9 and 9.0. *)
Definition four_ratings : list Movie :=
  [rate "7.0"; rate "7.0"; rate "8.9"; rate "9.0"].

(** [k] is the integer nearest to [q], and the even one of the two when [q]
    is half-way between two integers. *)
Definition nearest_even (q : Q) (k : Z) : Prop :=
  (inject_Z k - (1 # 2) <= q)%Q /\ (q <= inject_Z k + (1 # 2))%Q /\
  ((q == inject_Z k - (1 # 2) \/ q == inject_Z k + (1 # 2))%Q ->
   Z.even k = true).

(** The float nearest to [k] hundredths, with sign [neg]. *)
Definition of_hundredths (neg : bool) (k : Z) : spec_float :=
  match k with
  | Zpos p => Float.of_ratio neg p 100
  | _ => S754_zero neg
  end.

(** ** A successful load *)

(** The record that a row of the file becomes: the text columns as read,
    the rating and the year as [float] and [int] read them. *)
Definition typed_row (r : CsvRow) (m : Movie) : Prop :=
  Title m = Title r /\ Genre m = Genre r /\
  Float.of_string (Rating r) = Some (Rating m) /\
  Int.of_string (Year r) = Some (Year m) /\
  Director m = Director r.

(** The file is missing, the bootstrap succeeds, and the second read
    fails for another reason. *)
Definition unreadable_after_bootstrap : World :=
  mkWorld [NoSuchFile; ReadFailure] [true] [].

(** ** Rankings *)

(** The catalog in the order of [sorted] by descending rating. *)
Definition ranking (movies : list Movie) : list Movie :=
  sorted Float.ltb Rating true movies.

(** All four keys present, with true values. *)
Definition all_four (g : string) (r : spec_float) (y_from y_to : Z)
  : Preferences :=
  mkPreferences (Some g) (Some r) (Some y_from) (Some y_to).

(** ** Statistics of a catalog *)

(** The rating of a record is finite: neither NaN nor an infinity. *)
Definition finitely_rated (m : Movie) : Prop :=
  Float.is_finite (Rating m) = true.

(** No genre of the catalog is spelled in two ways that differ by letter
    case only. *)
Definition one_spelling (movies : list Movie) : Prop :=
  forall m m', In m movies -> In m' movies ->
    Str.lower (Genre m) = Str.lower (Genre m') -> Genre m = Genre m'.

(** The number of records of each genre of a list, added up. *)
Definition genre_total (movies : list Movie) (genres : list string) : nat :=
  foldr (fun g n => (length (filter_by_genre movies g) + n)%nat) 0%nat genres.

(** The seed catalog in reverse order. *)
Definition seed_reversed : list Movie := rev seed.

(** ** Sessions *)

(** One round of the menu loop: what it displays, and either the lines
    left for the next round or the way the session ends. *)
Inductive outcome : Type :=
  | Continue (rest : list string)
  | Stop (e : Session.ending).

Definition round (movies : list Movie) (line : string) (rest : list string)
  : list Session.event * outcome :=
  let choice := Session.strip line in
  if String.eqb choice "1" then
    match rest with
    | [] => ([], Stop Session.EndOfInput)
    | genre :: rest =>
        ([Session.DisplayMovies
            (filter_by_genre movies (Session.strip genre))],
         Continue rest)
    end
  else if String.eqb choice "2" then
    match rest with
    | [] => ([], Stop Session.EndOfInput)
    | start :: rest =>
        match Int.of_string (Session.strip start) with
        | None => ([Session.InvalidNumber], Continue rest)
        | Some start_year =>
            match rest with
            | [] => ([], Stop Session.EndOfInput)
            | end_ :: rest =>
                match Int.of_string (Session.strip end_) with
                | None => ([Session.InvalidNumber], Continue rest)
                | Some end_year =>
                    ([Session.DisplayMovies
                        (filter_by_year_range movies start_year end_year)],
                     Continue rest)
                end
            end
        end
    end
  else if String.eqb choice "3" then
    match rest with
    | [] => ([], Stop Session.EndOfInput)
    | rating :: rest =>
        match Float.of_string (Session.strip rating) with
        | None => ([Session.InvalidNumber], Continue rest)
        | Some min_rating =>
            ([Session.DisplayMovies (filter_by_min_rating movies min_rating)],
             Continue rest)
        end
    end
  else if String.eqb choice "4" then
    match rest with
    | genre_input :: rating_input :: year_from :: year_to :: rest =>
        let rating := Session.answer Float.of_string rating_input in
        let from := Session.answer Int.of_string year_from in
        let to := Session.answer Int.of_string year_to in
        (rating.2 ++ from.2 ++ to.2
           ++ [Session.DisplayMovies
                 (recommend_movies movies
                    (mkPreferences
                       (if Str.truthy (Session.strip genre_input)
                        then Some (Session.strip genre_input) else None)
                       rating.1 from.1 to.1))],
         Continue rest)
    | [_; rating_input; year_from] =>
        ((Session.answer Float.of_string rating_input).2
           ++ (Session.answer Int.of_string year_from).2,
         Stop Session.EndOfInput)
    | [_; rating_input] =>
        ((Session.answer Float.of_string rating_input).2,
         Stop Session.EndOfInput)
    | _ => ([], Stop Session.EndOfInput)
    end
  else if String.eqb choice "5" then
    match rest with
    | [] => ([], Stop Session.EndOfInput)
    | sub :: rest =>
        if String.eqb (Session.strip sub) "1" then
          ([Session.DisplayMovies (get_top_movies movies 5 None)],
           Continue rest)
        else if String.eqb (Session.strip sub) "2" then
          match rest with
          | [] => ([], Stop Session.EndOfInput)
          | genre :: rest =>
              ([Session.DisplayMovies
                  (get_top_movies movies 5 (Some (Session.strip genre)))],
               Continue rest)
          end
        else ([Session.InvalidChoice], Continue rest)
    end
  else if String.eqb choice "6" then
    match get_statistics movies with
    | Return stats => ([Session.DisplayStatistics stats], Continue rest)
    | Raise e => ([], Stop (Session.Uncaught e))
    end
  else if String.eqb choice "7" then
    ([Session.ListGenres (Session.genre_counts movies)], Continue rest)
  else if String.eqb choice "8" then ([Session.Goodbye], Stop Session.Returned)
  else ([Session.InvalidChoice], Continue rest).

(** The lists of records that a session displays. *)
Definition shown (events : list Session.event) : list (list Movie) :=
  omap (fun e => match e with
                 | Session.DisplayMovies l => Some l
                 | _ => None
                 end) events.

(** An answer that sets no constraint: blank, not a numeral, or zero. *)
Definition skipped {A : Type} (parse : string -> option A)
    (truthy : A -> bool) (line : string) : Prop :=
  match parse (Session.strip line) with
  | Some v => truthy v = false
  | None => True
  end.

(** A table with a header and no rows. *)
Definition empty_table : World := mkWorld [Table []] [] [].

(** * Properties *)

(** ** The model on concrete inputs *)

Example float_of_numeral :
  Float.of_string "9.3" = Some (S754_finite false 5235434566818202 (-49))
  /\ Float.of_string " +1_0.5e1 " = Float.of_string "105"
  /\ Float.of_string "1e400" = Some (S754_infinity false)
  /\ Float.of_string "-0.0" = Some (S754_zero true)
  /\ Float.of_string "NaN" = Some S754_nan.
Proof. repeat split; vm_compute; reflexivity. Qed.

Example float_of_text :
  Float.of_string "N/A" = None
  /\ Float.of_string "" = None
  /\ Float.of_string "9,3" = None
  /\ Float.of_string "1__0" = None
  /\ Float.of_string "1e" = None.
Proof. repeat split; vm_compute; reflexivity. Qed.

Example int_of_numeral :
  Int.of_string " -12 " = Some (-12)
  /\ Int.of_string "1_994" = Some 1994
  /\ Int.of_string "1994.0" = None
  /\ Int.of_string "" = None.
Proof. repeat split; vm_compute; reflexivity. Qed.

(** [round] works on the binary value: 0.125 and 0.375 are ties, 2.675 is
    below the tie it is written as. *)
Example round_binary_value :
  Float.round (Float.lit "0.125") 2 = Float.lit "0.12"
  /\ Float.round (Float.lit "0.375") 2 = Float.lit "0.38"
  /\ Float.round (Float.lit "2.675") 2 = Float.lit "2.67"
  /\ Float.round (Float.lit "-0.001") 2 = S754_zero true.
Proof. repeat split; vm_compute; reflexivity. Qed.

Example mean_of_three :
  Float.mean [Float.lit "9.3"; Float.lit "9.2"; Float.lit "9.0"]
  = Return (Float.lit "9.166666666666666")
  /\ Float.mean [] = Raise StatisticsError
  /\ Float.mean [Float.lit "inf"; Float.lit "1.0"]
     = Return (S754_infinity false).
Proof. repeat split; vm_compute; reflexivity. Qed.

(** A first run: the file is missing, the sample table is written and
    read back. *)
Example first_run :
  (load_movies 2
     (mkWorld [NoSuchFile; Table (dict_rows sample_movies)] [true] []) []).1.1
  = Return true
  /\ catalog
       (load_movies 2
          (mkWorld [NoSuchFile; Table (dict_rows sample_movies)] [true] [])
          []).2
     = Some seed
  /\ length seed = 25%nat.
Proof. repeat split; vm_compute; reflexivity. Qed.

Example top_five_of_seed :
  map Title (get_top_movies seed 5 None)
  = ["The Shawshank Redemption"; "The Godfather"; "The Dark Knight";
     "Pulp Fiction"; "Forrest Gump"]
  /\ map Title (get_top_movies seed 5 (Some "sci-fi"))
     = ["Inception"; "The Matrix"; "Interstellar"; "Back to the Future"].
Proof. split; vm_compute; reflexivity. Qed.

Example genres_of_seed :
  get_unique_genres seed
  = ["Action"; "Animation"; "Crime"; "Drama"; "Mystery"; "Sci-Fi";
     "Thriller"; "War"].
Proof. vm_compute. reflexivity. Qed.

Example drama_from_8_5 :
  map Title
    (recommend_movies seed
       (mkPreferences (Some "Drama") (Some (Float.lit "8.5")) None None))
  = ["The Shawshank Redemption"; "Forrest Gump"; "The Green Mile";
     "Whiplash"].
Proof. vm_compute. reflexivity. Qed.

(** ** The order of floats *)

Module FloatOrderFacts.
Import FloatOrder.

Lemma lex_compare_Lt a b : lex_compare a b = Lt <-> lex_lt a b.
Proof.
  unfold lex_compare, lex_lt.
  destruct (Z.compare_spec a.1.1 b.1.1);
    destruct (Z.compare_spec a.1.2 b.1.2);
    destruct (Z.compare_spec a.2 b.2);
    split; intros; try discriminate; try reflexivity; lia.
Qed.

Lemma lex_compare_Eq a b : lex_compare a b = Eq <-> a = b.
Proof.
  unfold lex_compare.
  destruct a as [[a1 a2] a3], b as [[b1 b2] b3]; simpl.
  destruct (Z.compare_spec a1 b1);
    destruct (Z.compare_spec a2 b2);
    destruct (Z.compare_spec a3 b3);
    split; intros E; try discriminate; try (inversion E; lia); subst;
    reflexivity.
Qed.

Lemma lex_compare_Gt a b : lex_compare a b = Gt <-> lex_lt b a.
Proof.
  unfold lex_compare, lex_lt.
  destruct (Z.compare_spec a.1.1 b.1.1);
    destruct (Z.compare_spec a.1.2 b.1.2);
    destruct (Z.compare_spec a.2 b.2);
    split; intros; try discriminate; try reflexivity; lia.
Qed.

Lemma SFcompare_rank x y :
  Float.is_nan x = false -> Float.is_nan y = false ->
  SFcompare x y = Some (lex_compare (rank x) (rank y)).
Proof.
  destruct x as [sx|sx| |sx mx ex], y as [sy|sy| |sy my ey];
    try discriminate; intros _ _;
    try destruct sx; try destruct sy; try reflexivity;
    unfold lex_compare; cbn [SFcompare rank fst snd Z.compare].
  rewrite Z.compare_opp, (Z.compare_antisym ex ey).
  destruct (ex ?= ey); reflexivity.
Qed.

Lemma ltb_lex x y :
  comparable x -> comparable y ->
  Float.ltb x y = true <-> lex_lt (rank x) (rank y).
Proof.
  intros Hx Hy. unfold Float.ltb, SFltb.
  rewrite (SFcompare_rank x y Hx Hy), <- lex_compare_Lt.
  destruct (lex_compare (rank x) (rank y)); split; congruence.
Qed.

Lemma eqb_lex x y :
  comparable x -> comparable y ->
  Float.eqb x y = true <-> rank x = rank y.
Proof.
  intros Hx Hy. unfold Float.eqb, SFeqb.
  rewrite (SFcompare_rank x y Hx Hy), <- lex_compare_Eq.
  destruct (lex_compare (rank x) (rank y)); split; congruence.
Qed.

Lemma eqb_comparable x y :
  Float.eqb x y = true -> comparable x /\ comparable y.
Proof. destruct x, y; try discriminate; split; reflexivity. Qed.

Lemma ltb_asym x y :
  comparable x -> comparable y ->
  Float.ltb x y = true -> Float.ltb y x = false.
Proof.
  intros Hx Hy H. apply not_true_is_false. intros H'.
  apply ltb_lex in H, H'; trivial. unfold lex_lt in *. lia.
Qed.

Lemma ltb_negtrans x y z :
  comparable x -> comparable y -> comparable z ->
  Float.ltb x y = false -> Float.ltb y z = false -> Float.ltb x z = false.
Proof.
  intros Hx Hy Hz H1 H2. apply not_true_is_false. intros H3.
  apply not_true_iff_false in H1, H2.
  rewrite ltb_lex in H1, H2, H3 by trivial. unfold lex_lt in *. lia.
Qed.

Lemma leb_not_ltb x y :
  comparable x -> comparable y ->
  Float.leb x y = negb (Float.ltb y x).
Proof.
  intros Hx Hy. unfold Float.leb, Float.ltb, SFleb, SFltb.
  rewrite (SFcompare_rank x y Hx Hy), (SFcompare_rank y x Hy Hx).
  destruct (lex_compare (rank x) (rank y)) eqn:E.
  - apply lex_compare_Eq in E. rewrite E.
    replace (lex_compare (rank y) (rank y)) with Eq; trivial.
    symmetry. now apply lex_compare_Eq.
  - apply lex_compare_Lt, lex_compare_Gt in E. now rewrite E.
  - apply lex_compare_Gt, lex_compare_Lt in E. now rewrite E.
Qed.

(** Two floats equal to a third one are not below each other. *)
Lemma eqb_not_ltb r x y :
  Float.eqb r x = true -> Float.eqb r y = true -> Float.ltb x y = false.
Proof.
  intros Hx Hy.
  destruct (eqb_comparable _ _ Hx) as [Cr Cx].
  destruct (eqb_comparable _ _ Hy) as [_ Cy].
  apply eqb_lex in Hx, Hy; trivial.
  apply not_true_is_false. intros H. apply ltb_lex in H; trivial.
  rewrite <- Hx, <- Hy in H. unfold lex_lt in H. lia.
Qed.

End FloatOrderFacts.

(** ** [sorted], [max] and [min] *)

Section OrderingFacts.
Context {A K : Type}.
Variable lt : K -> K -> bool.
Variable key : A -> K.
(** The items whose keys [<] orders: it is asymmetric on them, and so is
    being not below (a strict weak order). *)
Variable ok : A -> Prop.
Hypothesis lt_asym : forall x y,
  ok x -> ok y -> lt (key x) (key y) = true -> lt (key y) (key x) = false.
Hypothesis lt_negtrans : forall x y z,
  ok x -> ok y -> ok z ->
  lt (key x) (key y) = false -> lt (key y) (key z) = false ->
  lt (key x) (key z) = false.

Lemma lt_below x y z :
  ok x -> ok y -> ok z ->
  lt (key x) (key y) = false -> lt (key x) (key z) = true ->
  lt (key y) (key z) = true.
Proof.
  intros Hx Hy Hz H1 H2.
  destruct (lt (key y) (key z)) eqn:E; trivial.
  rewrite (lt_negtrans x y z) in H2; trivial.
Qed.

Lemma lt_above x y z :
  ok x -> ok y -> ok z ->
  lt (key y) (key z) = false -> lt (key x) (key z) = true ->
  lt (key x) (key y) = true.
Proof.
  intros Hx Hy Hz H1 H2.
  destruct (lt (key x) (key y)) eqn:E; trivial.
  rewrite (lt_negtrans x y z) in H2; trivial.
Qed.

Lemma precedes_asym reverse x y :
  ok x -> ok y ->
  precedes lt key reverse x y = true -> precedes lt key reverse y x = false.
Proof. destruct reverse; simpl; auto. Qed.

Lemma precedes_negtrans reverse x y z :
  ok x -> ok y -> ok z ->
  precedes lt key reverse x y = false ->
  precedes lt key reverse y z = false ->
  precedes lt key reverse x z = false.
Proof. destruct reverse; simpl; eauto. Qed.

Lemma insort_Permutation reverse x l :
  Permutation (insort lt key reverse x l) (x :: l).
Proof.
  induction l as [|y l IH]; simpl; trivial.
  destruct (precedes lt key reverse y x); trivial.
  rewrite IH. apply perm_swap.
Qed.

Lemma sorted_Permutation reverse l :
  Permutation (sorted lt key reverse l) l.
Proof.
  induction l as [|x l IH]; simpl; trivial.
  rewrite insort_Permutation. now constructor.
Qed.

Lemma sorted_length reverse l : length (sorted lt key reverse l) = length l.
Proof. apply Permutation_length, sorted_Permutation. Qed.

Lemma sorted_In reverse l x : In x (sorted lt key reverse l) <-> In x l.
Proof.
  split; apply Permutation_in;
    [|symmetry]; apply sorted_Permutation.
Qed.

Lemma insort_in_order reverse x l :
  ok x -> Forall ok l ->
  StronglySorted (in_order lt key reverse) l ->
  StronglySorted (in_order lt key reverse) (insort lt key reverse x l).
Proof.
  intros Hx Hl Hs. induction Hs as [|y l Hs IH Hy]; simpl.
  - repeat constructor.
  - inversion Hl as [|? ? Oy Ol]; subst.
    destruct (precedes lt key reverse y x) eqn:E.
    + constructor; auto.
      apply List.Forall_forall. intros z Hz.
      apply (Permutation_in _ (insort_Permutation reverse x l)) in Hz.
      destruct Hz as [<-|Hz].
      * unfold in_order. now apply precedes_asym.
      * rewrite List.Forall_forall in Hy. auto.
    + constructor; [now constructor|].
      constructor; trivial.
      rewrite List.Forall_forall in Hy, Ol |- *. intros z Hz.
      unfold in_order in *.
      apply (precedes_negtrans reverse z y x); auto.
Qed.

Lemma sorted_in_order reverse l :
  Forall ok l -> StronglySorted (in_order lt key reverse) (sorted lt key reverse l).
Proof.
  induction 1 as [|x l Hx Hl IH]; simpl; [constructor|].
  apply insort_in_order; trivial.
  rewrite List.Forall_forall in Hl |- *. intros z Hz. apply Hl.
  now apply sorted_In in Hz.
Qed.

(** Stability: the items selected by [p], none of which precedes another,
    keep their order. *)
Lemma insort_filter reverse (p : A -> bool) x l :
  (forall y, p x = true -> p y = true ->
             precedes lt key reverse y x = false) ->
  List.filter p (insort lt key reverse x l) = List.filter p (x :: l).
Proof.
  intros Hp. induction l as [|y l IH]; trivial.
  cbn [insort]. destruct (precedes lt key reverse y x) eqn:E; trivial.
  cbn [List.filter] in *. rewrite IH.
  destruct (p x) eqn:Px, (p y) eqn:Py; trivial.
  rewrite Hp in E; trivial. discriminate.
Qed.

Lemma sorted_filter reverse (p : A -> bool) l :
  (forall x y, p x = true -> p y = true ->
               precedes lt key reverse y x = false) ->
  List.filter p (sorted lt key reverse l) = List.filter p l.
Proof.
  intros Hp. induction l as [|x l IH]; trivial.
  cbn [sorted foldr]. rewrite insort_filter by auto.
  cbn [List.filter]. fold (sorted lt key reverse l). now rewrite IH.
Qed.

(** [max_from]: the result is the first item of [best :: l] that no item
    is above. *)
Lemma max_from_spec best l :
  ok best -> Forall ok l ->
  exists pre post,
    best :: l = pre ++ max_from lt key best l :: post /\
    Forall (fun x => lt (key x) (key (max_from lt key best l)) = true) pre /\
    Forall (fun x => lt (key (max_from lt key best l)) (key x) = false) post.
Proof.
  intros Hb Hl. revert best Hb.
  induction Hl as [|x l Hx Hl IH]; intros best Hb; simpl.
  - exists [], []. repeat split; constructor.
  - destruct (lt (key best) (key x)) eqn:E.
    + destruct (IH x Hx) as (pre & post & Heq & Hpre & Hpost).
      remember (max_from lt key x l) as m eqn:Em.
      exists (best :: pre), post. rewrite Heq. repeat split; trivial.
      constructor; trivial.
      destruct pre as [|p pre]; simpl in Heq; injection Heq as Hp Hl'.
      * now rewrite <- Hp.
      * subst p. apply List.Forall_cons_iff in Hpre as [Hxm _].
        assert (Hm : ok m).
        { rewrite List.Forall_forall in Hl. apply Hl. rewrite Hl'. apply in_elt. }
        destruct (lt (key best) (key m)) eqn:E2; trivial.
        rewrite (lt_negtrans x best m) in Hxm; auto.
    + destruct (IH best Hb) as (pre & post & Heq & Hpre & Hpost).
      remember (max_from lt key best l) as m eqn:Em.
      destruct pre as [|p pre]; simpl in Heq; injection Heq as Hp Hl'.
      * exists [], (x :: post). subst post. rewrite <- Hp in *.
        repeat split; trivial. now constructor.
      * subst p. exists (best :: x :: pre), post. rewrite Hl'.
        repeat split; trivial.
        apply List.Forall_cons_iff in Hpre as [Hbm Hpre'].
        assert (Hm : ok m).
        { rewrite List.Forall_forall in Hl. apply Hl. rewrite Hl'. apply in_elt. }
        constructor; trivial. constructor; trivial.
        apply (lt_below best); trivial.
Qed.

Lemma min_from_spec best l :
  ok best -> Forall ok l ->
  exists pre post,
    best :: l = pre ++ min_from lt key best l :: post /\
    Forall (fun x => lt (key (min_from lt key best l)) (key x) = true) pre /\
    Forall (fun x => lt (key x) (key (min_from lt key best l)) = false) post.
Proof.
  intros Hb Hl. revert best Hb.
  induction Hl as [|x l Hx Hl IH]; intros best Hb; simpl.
  - exists [], []. repeat split; constructor.
  - destruct (lt (key x) (key best)) eqn:E.
    + destruct (IH x Hx) as (pre & post & Heq & Hpre & Hpost).
      remember (min_from lt key x l) as m eqn:Em.
      exists (best :: pre), post. rewrite Heq. repeat split; trivial.
      constructor; trivial.
      destruct pre as [|p pre]; simpl in Heq; injection Heq as Hp Hl'.
      * now rewrite <- Hp.
      * subst p. apply List.Forall_cons_iff in Hpre as [Hxm _].
        assert (Hm : ok m).
        { rewrite List.Forall_forall in Hl. apply Hl. rewrite Hl'. apply in_elt. }
        destruct (lt (key m) (key best)) eqn:E2; trivial.
        rewrite (lt_negtrans m best x) in Hxm; auto.
    + destruct (IH best Hb) as (pre & post & Heq & Hpre & Hpost).
      remember (min_from lt key best l) as m eqn:Em.
      destruct pre as [|p pre]; simpl in Heq; injection Heq as Hp Hl'.
      * exists [], (x :: post). subst post. rewrite <- Hp in *.
        repeat split; trivial. now constructor.
      * subst p. exists (best :: x :: pre), post. rewrite Hl'.
        repeat split; trivial.
        apply List.Forall_cons_iff in Hpre as [Hbm Hpre'].
        assert (Hm : ok m).
        { rewrite List.Forall_forall in Hl. apply Hl. rewrite Hl'. apply in_elt. }
        constructor; trivial. constructor; trivial.
        apply (lt_above m x best); trivial.
Qed.

End OrderingFacts.

(** ** Lists *)

Lemma StronglySorted_impl_In {A : Type} (R R' : A -> A -> Prop) (l : list A) :
  (forall x y, In x l -> In y l -> R x y -> R' x y) ->
  StronglySorted R l -> StronglySorted R' l.
Proof.
  intros H Hs. induction Hs as [|x l Hs IH Hx]; constructor.
  - apply IH. intros y z Hy Hz. apply H; now right.
  - rewrite List.Forall_forall in Hx |- *. intros y Hy.
    apply H; [now left|now right|auto].
Qed.

Lemma filter_take_prefix {A : Type} (p : A -> bool) (n : nat) (l : list A) :
  exists rest, List.filter p l = List.filter p (take n l) ++ rest.
Proof.
  exists (List.filter p (drop n l)).
  now rewrite <- List.filter_app, take_drop.
Qed.

Lemma filter_all {A : Type} (l : list A) : List.filter (fun _ => true) l = l.
Proof. induction l; simpl; congruence. Qed.

Lemma slice_to_nonneg {A : Type} (l : list A) (n : Z) :
  0 <= n -> slice_to l n = take (Z.to_nat n) l.
Proof. intros H. unfold slice_to. now rewrite (proj2 (Z.leb_le 0 n) H). Qed.

Lemma find_first {A : Type} (p : A -> bool) (pre post : list A) (m : A) :
  Forall (fun x => p x = false) pre -> p m = true ->
  List.find p (pre ++ m :: post) = Some m.
Proof.
  intros Hpre Hm. induction Hpre as [|x pre Hx Hpre IH]; simpl.
  - now rewrite Hm.
  - now rewrite Hx.
Qed.

(** ** Catalogs whose ratings are numbers *)

Lemma rating_ltb_asym (x y : Movie) :
  rated x -> rated y ->
  Float.ltb (Rating x) (Rating y) = true ->
  Float.ltb (Rating y) (Rating x) = false.
Proof. apply FloatOrderFacts.ltb_asym. Qed.

Lemma rating_ltb_negtrans (x y z : Movie) :
  rated x -> rated y -> rated z ->
  Float.ltb (Rating x) (Rating y) = false ->
  Float.ltb (Rating y) (Rating z) = false ->
  Float.ltb (Rating x) (Rating z) = false.
Proof. apply FloatOrderFacts.ltb_negtrans. Qed.

Lemma year_ltb_asym (x y : Movie) :
  (Year x <? Year y) = true -> (Year y <? Year x) = false.
Proof. lia. Qed.

Lemma year_ltb_negtrans (x y z : Movie) :
  (Year x <? Year y) = false -> (Year y <? Year z) = false ->
  (Year x <? Year z) = false.
Proof. lia. Qed.

Lemma sorted_descending (movies : list Movie) :
  Forall rated movies -> descending (sorted Float.ltb Rating true movies).
Proof.
  intros H. unfold descending.
  apply StronglySorted_impl_In with (R := in_order Float.ltb Rating true).
  - intros x y Hx Hy. rewrite sorted_In in Hx, Hy.
    rewrite List.Forall_forall in H.
    unfold in_order, precedes, Float.geb. intros E.
    rewrite FloatOrderFacts.leb_not_ltb by (apply H; trivial).
    now rewrite E.
  - apply sorted_in_order with (ok := rated); trivial.
    + apply rating_ltb_asym.
    + apply rating_ltb_negtrans.
Qed.

(** Records of one rating keep their order when sorted by rating. *)
Lemma sorted_stable (r : spec_float) (movies : list Movie) :
  List.filter (fun m => Float.eqb r (Rating m))
              (sorted Float.ltb Rating true movies)
  = List.filter (fun m => Float.eqb r (Rating m)) movies.
Proof.
  apply sorted_filter. intros x y Hx Hy. simpl.
  now apply (FloatOrderFacts.eqb_not_ltb r).
Qed.

(** ** Top movies *)

Lemma get_top_movies_scoped movies n genre :
  get_top_movies movies n genre
  = slice_to (sorted Float.ltb Rating true (scoped movies genre)) n.
Proof. destruct genre as [[|c g]|]; reflexivity. Qed.

(** C4: for a count [n] and a catalog whose ratings are numbers, with [pool]
    the records in scope (the whole catalog, or those of the given genre),
    [get_top_movies] returns [min n |pool|] records: exactly [n] when [pool] has
    at least [n] records and all of [pool] otherwise.  They are in descending
    order of rating, no record left out is rated above a returned one, and
    the returned records of any one rating are the first records of that
    rating in [pool], in the order of [pool] (which is the order of the
    catalog). *)
Theorem top_movies_sorted_stable (movies : list Movie) (n : Z)
    (genre : option string) :
  0 <= n ->
  Forall rated movies ->
  let top := get_top_movies movies n genre in
  let pool := scoped movies genre in
  length top = Nat.min (Z.to_nat n) (length pool)
  /\ (n <= Z.of_nat (length pool) -> Z.of_nat (length top) = n)
  /\ (Z.of_nat (length pool) <= n -> Permutation top pool)
  /\ descending top
  /\ (exists rest,
        Permutation (top ++ rest) pool /\
        forall a b, In a top -> In b rest ->
                    Float.geb (Rating a) (Rating b) = true)
  /\ (forall r, exists rest,
        List.filter (fun m => Float.eqb r (Rating m)) pool
        = List.filter (fun m => Float.eqb r (Rating m)) top ++ rest)
  /\ (exists keep, pool = List.filter keep movies).
Proof.
  intros Hn Hr top pool.
  assert (HS : Forall rated pool).
  { unfold pool, scoped. destruct genre as [[|c g]|]; trivial.
    rewrite List.Forall_forall in Hr |- *. intros m Hm.
    apply List.filter_In in Hm. now apply Hr. }
  assert (Htop : top = take (Z.to_nat n) (sorted Float.ltb Rating true pool)).
  { unfold top. rewrite get_top_movies_scoped. now apply slice_to_nonneg. }
  pose proof (sorted_descending pool HS) as Hd.
  set (srt := sorted Float.ltb Rating true pool) in *.
  assert (Hlen : length srt = length pool) by apply sorted_length.
  assert (Hperm : Permutation srt pool) by apply sorted_Permutation.
  rewrite <- (take_drop (Z.to_nat n) srt) in Hd, Hperm.
  rewrite <- Htop in Hd, Hperm.
  repeat split.
  - rewrite Htop, length_take. now rewrite Hlen.
  - intros H. rewrite Htop, length_take, Hlen. lia.
  - intros H. rewrite Htop, take_ge by lia. apply sorted_Permutation.
  - unfold descending in *. now apply StronglySorted_app_1_l in Hd.
  - exists (drop (Z.to_nat n) srt). split; trivial.
    intros a b Ha Hb. unfold descending in Hd.
    apply (StronglySorted_app_1_elem_of _ _ _ a b Hd);
      now apply list_elem_of_In.
  - intros r. rewrite <- (sorted_stable r pool). fold srt. rewrite Htop.
    apply filter_take_prefix.
  - unfold pool, scoped. destruct genre as [[|c g]|].
    + exists (fun _ => true). symmetry. apply filter_all.
    + eexists. reflexivity.
    + exists (fun _ => true). symmetry. apply filter_all.
Qed.

Lemma seed_rated : Forall rated seed.
Proof. repeat constructor. Qed.

Lemma top_movies_of_seed :
  length (get_top_movies seed 5 (Some "crime")) = 5%nat /\
  descending (get_top_movies seed 5 (Some "crime")).
Proof.
  pose proof (top_movies_sorted_stable seed 5 (Some "crime")) as H.
  destruct H as (_ & Hlen & _ & Hd & _).
  - lia.
  - exact seed_rated.
  - split.
    + apply Nat2Z.inj. apply Hlen. vm_compute. discriminate.
    + exact Hd.
Defined.

(** C9: with the empty string as genre, [get_top_movies] ranks the whole
    catalog, exactly as with no genre; it does not select the records whose
    stored genre is empty, which [filter_by_genre] would: of a record
    without genre and a drama it returns both, the drama first. *)
Theorem top_movies_empty_genre (movies : list Movie) (n : Z) :
  get_top_movies movies n (Some "") = get_top_movies movies n None
  /\ get_top_movies movies n (Some "")
     = slice_to (sorted Float.ltb Rating true movies) n
  /\ map Title (get_top_movies one_untagged 5 (Some ""))
     = ["Whiplash"; "Untitled"]
  /\ map Title (filter_by_genre one_untagged "") = ["Untitled"].
Proof.
  split; [reflexivity|]. split; [reflexivity|].
  split; vm_compute; reflexivity.
Qed.

(** ** Statistics *)

Lemma mean_returns (x : spec_float) (data : list spec_float) :
  exists m, Float.mean (x :: data) = Return m.
Proof.
  unfold Float.mean.
  destruct (List.filter _ (x :: data)); eexists; reflexivity.
Qed.

Lemma genre_loop_returns (movies : list Movie) (genres : list string)
    (acc : list (string * GenreStats)) :
  exists d, genre_loop movies genres acc = Return d.
Proof.
  revert acc. induction genres as [|g genres IH]; intros acc; simpl.
  - now exists acc.
  - destruct (filter_by_genre movies g) as [|m ms]; [apply IH|].
    destruct (mean_returns (Rating m) (map Rating ms)) as [x Hx].
    cbn [map]. rewrite Hx. cbn [bind]. apply IH.
Qed.

Lemma get_statistics_returns (m : Movie) (movies : list Movie) :
  exists stats, get_statistics (m :: movies) = Return stats.
Proof.
  unfold get_statistics.
  destruct (mean_returns (Rating m) (map Rating movies)) as [x Hx].
  cbn [map]. rewrite Hx. cbn [bind py_max py_min].
  destruct (genre_loop_returns (m :: movies) (get_unique_genres (m :: movies)) [])
    as [d Hd].
  rewrite Hd. cbn [bind]. eexists. reflexivity.
Qed.

(** C5: on an empty catalog [get_statistics] raises [StatisticsError] and
    returns no statistics; on every other catalog it returns. *)
Theorem statistics_fails_only_when_empty (movies : list Movie) :
  get_statistics [] = Raise StatisticsError
  /\ ((exists e, get_statistics movies = Raise e) <-> movies = [])
  /\ (movies <> [] -> exists stats, get_statistics movies = Return stats).
Proof.
  split; [reflexivity|]. split.
  - split.
    + intros [e He]. destruct movies as [|m movies]; trivial.
      destruct (get_statistics_returns m movies) as [s Hs]. congruence.
    + intros ->. now exists StatisticsError.
  - intros H. destruct movies as [|m movies]; [congruence|].
    apply get_statistics_returns.
Qed.

Lemma get_statistics_fields (movies : list Movie) (stats : Statistics) :
  get_statistics movies = Return stats ->
  exists mean,
    Float.mean (map Rating movies) = Return mean /\
    total_movies stats = length movies /\
    average_rating stats = Float.round mean 2 /\
    py_max Float.ltb Rating movies = Return (highest_rated stats) /\
    py_min Float.ltb Rating movies = Return (lowest_rated stats) /\
    genre_loop movies (get_unique_genres movies) []
    = Return (genre_statistics stats) /\
    py_min Z.ltb Year movies = Return (oldest_movie stats) /\
    py_max Z.ltb Year movies = Return (newest_movie stats).
Proof.
  unfold get_statistics. intros H.
  destruct (Float.mean (map Rating movies)) as [mean|]; [|discriminate].
  cbn [bind] in H.
  destruct (py_max Float.ltb Rating movies) as [hi|]; [|discriminate].
  destruct (py_min Float.ltb Rating movies) as [lo|]; [|discriminate].
  cbn [bind] in H.
  destruct (genre_loop movies (get_unique_genres movies) []) as [gs|];
    [|discriminate].
  cbn [bind] in H.
  destruct (py_min Z.ltb Year movies) as [old|]; [|discriminate].
  destruct (py_max Z.ltb Year movies) as [new|]; [|discriminate].
  cbn [bind] in H. injection H as <-. exists mean. repeat split.
Qed.

Lemma py_max_rating (movies : list Movie) (m : Movie) :
  Forall rated movies ->
  py_max Float.ltb Rating movies = Return m ->
  Forall (fun x => Float.leb (Rating x) (Rating m) = true) movies /\
  first_rated (Rating m) movies = Some m.
Proof.
  intros Hr H. destruct movies as [|b l]; [discriminate|].
  injection H as H.
  apply List.Forall_cons_iff in Hr as [Hb Hl].
  destruct (max_from_spec Float.ltb Rating rated rating_ltb_asym
              rating_ltb_negtrans b l Hb Hl)
    as (pre & post & Heq & Hpre & Hpost).
  rewrite H in Heq, Hpre, Hpost. rewrite Heq.
  assert (Hall : Forall rated (pre ++ m :: post)).
  { rewrite <- Heq. now constructor. }
  apply List.Forall_app in Hall as [Ha Hb'].
  apply List.Forall_cons_iff in Hb' as [Hm Hc].
  assert (Hmm : Float.ltb (Rating m) (Rating m) = false).
  { destruct (Float.ltb (Rating m) (Rating m)) eqn:E; trivial.
    now rewrite (rating_ltb_asym m m Hm Hm E) in E. }
  split.
  - apply List.Forall_app. split; [|constructor].
    + rewrite List.Forall_forall in Hpre, Ha |- *. intros x Hx.
      pose proof (Ha x Hx) as Rx. pose proof (Hpre x Hx) as Lx.
      rewrite FloatOrderFacts.leb_not_ltb by assumption.
      now rewrite (rating_ltb_asym x m Rx Hm Lx).
    + rewrite FloatOrderFacts.leb_not_ltb by assumption. now rewrite Hmm.
    + rewrite List.Forall_forall in Hpost, Hc |- *. intros x Hx.
      pose proof (Hc x Hx) as Rx.
      rewrite FloatOrderFacts.leb_not_ltb by assumption. now rewrite Hpost.
  - apply find_first.
    + rewrite List.Forall_forall in Hpre, Ha |- *. intros x Hx.
      pose proof (Ha x Hx) as Rx. pose proof (Hpre x Hx) as Lx.
      apply not_true_is_false. intros E.
      apply FloatOrderFacts.eqb_lex in E; try assumption.
      apply FloatOrderFacts.ltb_lex in Lx; try assumption.
      rewrite E in Lx. unfold FloatOrder.lex_lt in Lx. lia.
    + apply FloatOrderFacts.eqb_lex; trivial.
Qed.

Lemma py_min_rating (movies : list Movie) (m : Movie) :
  Forall rated movies ->
  py_min Float.ltb Rating movies = Return m ->
  Forall (fun x => Float.leb (Rating m) (Rating x) = true) movies /\
  first_rated (Rating m) movies = Some m.
Proof.
  intros Hr H. destruct movies as [|b l]; [discriminate|].
  injection H as H.
  apply List.Forall_cons_iff in Hr as [Hb Hl].
  destruct (min_from_spec Float.ltb Rating rated rating_ltb_asym
              rating_ltb_negtrans b l Hb Hl)
    as (pre & post & Heq & Hpre & Hpost).
  rewrite H in Heq, Hpre, Hpost. rewrite Heq.
  assert (Hall : Forall rated (pre ++ m :: post)).
  { rewrite <- Heq. now constructor. }
  apply List.Forall_app in Hall as [Ha Hb'].
  apply List.Forall_cons_iff in Hb' as [Hm Hc].
  assert (Hmm : Float.ltb (Rating m) (Rating m) = false).
  { destruct (Float.ltb (Rating m) (Rating m)) eqn:E; trivial.
    now rewrite (rating_ltb_asym m m Hm Hm E) in E. }
  split.
  - apply List.Forall_app. split; [|constructor].
    + rewrite List.Forall_forall in Hpre, Ha |- *. intros x Hx.
      pose proof (Ha x Hx) as Rx. pose proof (Hpre x Hx) as Lx.
      rewrite FloatOrderFacts.leb_not_ltb by assumption.
      now rewrite (rating_ltb_asym m x Hm Rx Lx).
    + rewrite FloatOrderFacts.leb_not_ltb by assumption. now rewrite Hmm.
    + rewrite List.Forall_forall in Hpost, Hc |- *. intros x Hx.
      pose proof (Hc x Hx) as Rx.
      rewrite FloatOrderFacts.leb_not_ltb by assumption. now rewrite Hpost.
  - apply find_first.
    + rewrite List.Forall_forall in Hpre, Ha |- *. intros x Hx.
      pose proof (Ha x Hx) as Rx. pose proof (Hpre x Hx) as Lx.
      apply not_true_is_false. intros E.
      apply FloatOrderFacts.eqb_lex in E; try assumption.
      apply FloatOrderFacts.ltb_lex in Lx; try assumption.
      rewrite E in Lx. unfold FloatOrder.lex_lt in Lx. lia.
    + apply FloatOrderFacts.eqb_lex; trivial.
Qed.

Lemma py_max_year (movies : list Movie) (m : Movie) :
  py_max Z.ltb Year movies = Return m ->
  Forall (fun x => Year x <= Year m) movies /\
  first_of_year (Year m) movies = Some m.
Proof.
  intros H. destruct movies as [|b l]; [discriminate|].
  injection H as H.
  destruct (max_from_spec Z.ltb Year (fun _ => True)
              (fun x y _ _ => year_ltb_asym x y)
              (fun x y z _ _ _ => year_ltb_negtrans x y z)
              b l I (Forall_true _ _ (fun _ => I)))
    as (pre & post & Heq & Hpre & Hpost).
  rewrite H in Heq, Hpre, Hpost. rewrite Heq. split.
  - apply List.Forall_app. split; [|constructor].
    + eapply List.Forall_impl; [|exact Hpre]. simpl. intros. lia.
    + lia.
    + eapply List.Forall_impl; [|exact Hpost]. simpl. intros. lia.
  - apply find_first; [|apply Z.eqb_refl].
    eapply List.Forall_impl; [|exact Hpre]. simpl. intros. lia.
Qed.

Lemma py_min_year (movies : list Movie) (m : Movie) :
  py_min Z.ltb Year movies = Return m ->
  Forall (fun x => Year m <= Year x) movies /\
  first_of_year (Year m) movies = Some m.
Proof.
  intros H. destruct movies as [|b l]; [discriminate|].
  injection H as H.
  destruct (min_from_spec Z.ltb Year (fun _ => True)
              (fun x y _ _ => year_ltb_asym x y)
              (fun x y z _ _ _ => year_ltb_negtrans x y z)
              b l I (Forall_true _ _ (fun _ => I)))
    as (pre & post & Heq & Hpre & Hpost).
  rewrite H in Heq, Hpre, Hpost. rewrite Heq. split.
  - apply List.Forall_app. split; [|constructor].
    + eapply List.Forall_impl; [|exact Hpre]. simpl. intros. lia.
    + lia.
    + eapply List.Forall_impl; [|exact Hpost]. simpl. intros. lia.
  - apply find_first; [|apply Z.eqb_refl].
    eapply List.Forall_impl; [|exact Hpre]. simpl. intros. lia.
Qed.

(** C7: on a catalog whose ratings are numbers, the statistics name as
    [highest_rated] a record that no record is rated above, and it is the
    first record of the catalog with that rating; [lowest_rated],
    [oldest_movie] and [newest_movie] are likewise the first records with
    the minimum rating, the minimum year and the maximum year. *)
Theorem statistics_extremes_are_first (movies : list Movie)
    (stats : Statistics) :
  Forall rated movies ->
  get_statistics movies = Return stats ->
  (Forall (fun x => Float.leb (Rating x) (Rating (highest_rated stats)) = true)
          movies /\
   first_rated (Rating (highest_rated stats)) movies
   = Some (highest_rated stats))
  /\ (Forall (fun x => Float.leb (Rating (lowest_rated stats)) (Rating x) = true)
             movies /\
      first_rated (Rating (lowest_rated stats)) movies
      = Some (lowest_rated stats))
  /\ (Forall (fun x => Year (oldest_movie stats) <= Year x) movies /\
      first_of_year (Year (oldest_movie stats)) movies
      = Some (oldest_movie stats))
  /\ (Forall (fun x => Year x <= Year (newest_movie stats)) movies /\
      first_of_year (Year (newest_movie stats)) movies
      = Some (newest_movie stats)).
Proof.
  intros Hr H.
  destruct (get_statistics_fields movies stats H)
    as (mean & _ & _ & _ & Hhi & Hlo & _ & Hold & Hnew).
  split; [now apply py_max_rating|].
  split; [now apply py_min_rating|].
  split; [now apply py_min_year|now apply py_max_year].
Qed.

Lemma statistics_of_seed :
  exists stats,
    get_statistics seed = Return stats /\
    Title (highest_rated stats) = "The Shawshank Redemption" /\
    first_rated (Rating (highest_rated stats)) seed
    = Some (highest_rated stats).
Proof.
  eexists. split; [vm_compute; reflexivity|]. split; [reflexivity|].
  eapply (statistics_extremes_are_first seed).
  - exact seed_rated.
  - vm_compute. reflexivity.
Defined.

(** ** Genres *)

Lemma string_lt_trans (s t u : string) :
  (s ?= t)%string = Lt -> (t ?= u)%string = Lt -> (s ?= u)%string = Lt.
Proof.
  intros H1 H2.
  apply OrderedTypeEx.String_as_OT.cmp_lt in H1, H2.
  apply OrderedTypeEx.String_as_OT.cmp_lt.
  eapply OrderedTypeEx.String_as_OT.lt_trans; eassumption.
Qed.

Lemma string_ltb_asym (s t : string) :
  (s <? t)%string = true -> (t <? s)%string = false.
Proof.
  unfold String.ltb. rewrite (String.compare_antisym s t).
  destruct (t ?= s)%string; simpl; congruence.
Qed.

Lemma string_ltb_total (s t : string) :
  (s <? t)%string = false -> (t <? s)%string = false -> s = t.
Proof.
  unfold String.ltb. rewrite (String.compare_antisym s t).
  destruct (t ?= s)%string eqn:E; simpl; try congruence.
  intros _ _. symmetry. now apply String.compare_eq_iff.
Qed.

Lemma string_ltb_negtrans (s t u : string) :
  (s <? t)%string = false -> (t <? u)%string = false ->
  (s <? u)%string = false.
Proof.
  intros H1 H2. apply not_true_is_false. intros H3.
  destruct (t <? s)%string eqn:E.
  - assert (H : (t <? u)%string = true); [|congruence].
    unfold String.ltb in *.
    destruct (t ?= s)%string eqn:E1; try discriminate.
    destruct (s ?= u)%string eqn:E2; try discriminate.
    now rewrite (string_lt_trans t s u).
  - rewrite (string_ltb_total s t H1 E) in H3. congruence.
Qed.

Lemma StronglySorted_NoDup_strict {A : Type} (R : A -> A -> Prop)
    (l : list A) :
  NoDup l -> StronglySorted R l ->
  StronglySorted (fun x y => R x y /\ x <> y) l.
Proof.
  intros Hn Hs. induction Hs as [|x l Hs IH Hx]; constructor.
  - apply IH. now apply NoDup_cons_1_2 in Hn.
  - apply NoDup_cons in Hn as [Hx' _].
    rewrite List.Forall_forall in Hx |- *. intros y Hy. split; auto.
    intros ->. now apply Hx', list_elem_of_In.
Qed.

Lemma ascending_unique (l1 l2 : list string) :
  ascending l1 -> ascending l2 -> NoDup l1 -> NoDup l2 ->
  (forall g, In g l1 <-> In g l2) -> l1 = l2.
Proof.
  intros H1 H2 N1 N2 Hin.
  apply (StronglySorted_unique_strong
           (fun a b : string => (a <? b)%string = true)); trivial.
  - intros x y _ _ Hxy Hyx.
    now rewrite (string_ltb_asym x y Hxy) in Hyx.
  - apply NoDup_Permutation; trivial.
    intros x. rewrite !list_elem_of_In. apply Hin.
Qed.

Lemma get_unique_genres_In (movies : list Movie) (g : string) :
  In g (get_unique_genres movies) <-> In g (map Genre movies).
Proof.
  unfold get_unique_genres. rewrite sorted_In.
  rewrite <- !list_elem_of_In, elem_of_elements, elem_of_list_to_set.
  reflexivity.
Qed.

Lemma get_unique_genres_NoDup (movies : list Movie) :
  NoDup (get_unique_genres movies).
Proof.
  unfold get_unique_genres. rewrite sorted_Permutation.
  apply NoDup_elements.
Qed.

Lemma get_unique_genres_ascending (movies : list Movie) :
  ascending (get_unique_genres movies).
Proof.
  pose proof (get_unique_genres_NoDup movies) as Hn.
  unfold get_unique_genres in *.
  set (l := elements _) in *.
  pose proof (sorted_in_order String.ltb id (fun _ => True)
                (fun s t _ _ => string_ltb_asym s t)
                (fun s t u _ _ _ => string_ltb_negtrans s t u) false l
                (Forall_true _ _ (fun _ => I))) as Hs.
  apply (StronglySorted_NoDup_strict _ _ Hn) in Hs.
  eapply StronglySorted_impl_In; [|exact Hs].
  intros x y _ _ [Hxy Hne]. unfold in_order, precedes, id in Hxy.
  destruct (x <? y)%string eqn:E; trivial.
  now destruct Hne; apply string_ltb_total.
Qed.

(** C8: [get_unique_genres] lists the genres of the catalog in strictly
    ascending lexicographic order, each one once, as stored (two
    spellings are one genre only when they are the same string); the result
    depends only on which genres occur, not on their order or number of
    occurrences. *)
Theorem unique_genres_sorted_distinct (movies movies' : list Movie) :
  ascending (get_unique_genres movies)
  /\ List.NoDup (get_unique_genres movies)
  /\ (forall g, In g (get_unique_genres movies)
                <-> exists m, In m movies /\ Genre m = g)
  /\ ((forall g, In g (map Genre movies) <-> In g (map Genre movies')) ->
      get_unique_genres movies' = get_unique_genres movies).
Proof.
  split; [apply get_unique_genres_ascending|].
  split; [apply NoDup_ListNoDup, get_unique_genres_NoDup|]. split.
  - intros g. rewrite get_unique_genres_In, in_map_iff.
    split; intros (m & H1 & H2); now exists m.
  - intros H. apply ascending_unique;
      try apply get_unique_genres_ascending;
      try apply get_unique_genres_NoDup.
    intros g. rewrite !get_unique_genres_In. symmetry. apply H.
Qed.

(** ** Statistics by genre *)

Lemma dict_set_fresh {V : Type} (k : string) (v : V) (d : list (string * V)) :
  ~ In k (map fst d) -> dict_set k v d = d ++ [(k, v)].
Proof.
  induction d as [|[k' v'] d IH]; simpl; trivial.
  intros H. destruct (String.eqb_spec k' k) as [->|_].
  - destruct H. now left.
  - rewrite IH; trivial. intros H'. apply H. now right.
Qed.

Lemma genre_loop_spec (movies : list Movie) (genres : list string)
    (acc d : list (string * GenreStats)) :
  List.NoDup genres ->
  (forall g, In g genres -> ~ In g (map fst acc)) ->
  (forall g, In g genres -> filter_by_genre movies g <> []) ->
  genre_loop movies genres acc = Return d ->
  exists entries,
    d = acc ++ entries /\
    map fst entries = genres /\
    Forall (fun e => genre_entry movies e.1 e.2) entries.
Proof.
  revert acc. induction genres as [|g genres IH]; intros acc Hn Hacc Hne H.
  - injection H as <-. exists []. rewrite app_nil_r. repeat split. constructor.
  - cbn [genre_loop] in H.
    pose proof (Hne g (or_introl eq_refl)) as Hg.
    destruct (filter_by_genre movies g) as [|m ms] eqn:E; [congruence|].
    destruct (mean_returns (Rating m) (map Rating ms)) as [mean Hmean].
    cbn [map] in H. rewrite Hmean in H. cbn [bind] in H.
    rewrite dict_set_fresh in H by (apply Hacc; now left).
    apply List.NoDup_cons_iff in Hn as [Hg' Hn].
    apply IH in H as (entries & -> & Hk & He); trivial.
    + exists ((g, mkGenreStats (length (m :: ms)) (Float.round mean 2))
                :: entries).
      rewrite <- app_assoc. repeat split.
      * simpl. now rewrite Hk.
      * constructor; trivial. unfold genre_entry. cbn [fst snd count avg_rating].
        unfold filter_by_genre in E. rewrite E. split; trivial.
        exists mean. now split.
    + intros g0 Hg0. rewrite map_app, in_app_iff. simpl.
      intros [H'|[->|[]]]; [|contradiction].
      apply (Hacc g0); [now right|trivial].
    + intros g0 Hg0. apply Hne. now right.
Qed.

Lemma filter_by_genre_own (movies : list Movie) (g : string) :
  In g (map Genre movies) -> filter_by_genre movies g <> [].
Proof.
  intros H. apply in_map_iff in H as (m & <- & Hm).
  intros E. assert (Hin : In m (filter_by_genre movies (Genre m))).
  { apply List.filter_In. split; trivial. apply String.eqb_refl. }
  rewrite E in Hin. destruct Hin.
Qed.

Lemma genre_statistics_entries (movies : list Movie) (stats : Statistics) :
  get_statistics movies = Return stats ->
  map fst (genre_statistics stats) = get_unique_genres movies /\
  Forall (fun e => genre_entry movies e.1 e.2) (genre_statistics stats).
Proof.
  intros H.
  destruct (get_statistics_fields movies stats H)
    as (_ & _ & _ & _ & _ & _ & Hloop & _).
  apply genre_loop_spec in Hloop as (entries & -> & Hk & He).
  - now split.
  - apply NoDup_ListNoDup, get_unique_genres_NoDup.
  - intros g _ [].
  - intros g Hg. apply filter_by_genre_own.
    now apply get_unique_genres_In.
Qed.

(** C10: the keys of [genre_statistics] are the genres as stored, in the
    order of [get_unique_genres]; the entry of a key counts and averages
    the records whose genre equals the key up to letter case.  Two keys that
    differ only in letter case therefore have the same entry, and the counts
    can add up to more than [total_movies]. *)
Theorem genre_statistics_fold_case (movies : list Movie) (stats : Statistics) :
  get_statistics movies = Return stats ->
  map fst (genre_statistics stats) = get_unique_genres movies
  /\ (forall g gs, In (g, gs) (genre_statistics stats) ->
        genre_entry movies g gs)
  /\ (forall g1 g2 s1 s2,
        In (g1, s1) (genre_statistics stats) ->
        In (g2, s2) (genre_statistics stats) ->
        Str.lower g1 = Str.lower g2 -> s1 = s2)
  /\ (exists stats2,
        get_statistics two_spellings = Return stats2 /\
        map fst (genre_statistics stats2) = ["Drama"; "drama"] /\
        (total_movies stats2 < sum_counts (genre_statistics stats2))%nat).
Proof.
  intros H.
  destruct (genre_statistics_entries movies stats H) as [Hk He].
  rewrite List.Forall_forall in He.
  split; trivial. split; [|split].
  - intros g gs Hin. apply (He (g, gs) Hin).
  - intros g1 g2 s1 s2 H1 H2 Hl.
    apply He in H1, H2. unfold genre_entry in H1, H2. cbn [fst snd] in H1, H2.
    rewrite Hl in H1.
    destruct H1 as (C1 & m1 & M1 & A1), H2 as (C2 & m2 & M2 & A2).
    destruct s1, s2. cbn in *. subst. congruence.
  - eexists. split; [vm_compute; reflexivity|].
    split; [reflexivity|]. vm_compute. lia.
Qed.

Lemma genre_statistics_of_seed :
  exists stats,
    get_statistics seed = Return stats /\
    map fst (genre_statistics stats) = get_unique_genres seed.
Proof.
  eexists. split; [vm_compute; reflexivity|].
  eapply (genre_statistics_fold_case seed).
  vm_compute. reflexivity.
Defined.

(** ** Recommendations *)

(** C3, as stated, fails: a [min_rating] of [0.0] is present and ignored, so
    a record rated below it is returned; and with [year_to] present and [0],
    the records of the sample catalog, all of later years, are returned. *)
Lemma recommend_ignores_zero_options :
  min_rating at_least_zero = Some (Float.lit "0.0")
  /\ recommend_movies [flop] at_least_zero = [flop]
  /\ Float.geb (Rating flop) (Float.lit "0.0") = false
  /\ year_to up_to_year_zero = Some 0
  /\ map Year (recommend_movies seed up_to_year_zero)
     = [1994; 1972; 2008; 1994; 1994].
Proof. repeat split; vm_compute; reflexivity. Qed.

Lemma filter_filter {A : Type} (p q : A -> bool) (l : list A) :
  List.filter q (List.filter p l) = List.filter (fun x => p x && q x) l.
Proof.
  induction l as [|x l IH]; simpl; trivial.
  destruct (p x); simpl; [destruct (q x)|]; now rewrite IH.
Qed.

Lemma given_filter {B : Type} (truthy : B -> bool)
    (test : B -> Movie -> bool) (o : option B) (l : list Movie) :
  match given truthy o with
  | Some v => List.filter (test v) l
  | None => l
  end
  = List.filter (constraint truthy test o) l.
Proof.
  unfold given, constraint. destruct o as [v|]; [destruct (truthy v)|];
    trivial; symmetry; apply filter_all.
Qed.

Lemma recommend_movies_meets (movies : list Movie) (p : Preferences) :
  recommend_movies movies p
  = slice_to (sorted Float.ltb Rating true (List.filter (meets p) movies)) 5.
Proof.
  unfold recommend_movies. cbv zeta. do 2 f_equal.
  rewrite (given_filter Str.truthy
             (fun g m => String.eqb (Str.lower (Genre m)) (Str.lower g))).
  rewrite (given_filter Float.truthy (fun r m => Float.geb (Rating m) r)).
  rewrite (given_filter Int.truthy (fun y m => Year m >=? y)).
  rewrite (given_filter Int.truthy (fun y m => Year m <=? y)).
  rewrite !filter_filter. apply List.filter_ext. intros m. unfold meets.
  replace (constraint Int.truthy (fun y m0 => Year m0 >=? y) (year_from p) m)
    with (constraint Int.truthy (fun y m0 => y <=? Year m0) (year_from p) m).
  - now rewrite !andb_assoc.
  - unfold constraint. destruct (year_from p) as [y|]; trivial.
    now rewrite Z.geb_leb.
Qed.

(** C3, amended: [recommend_movies] returns the first five, by descending
    rating, of the records that meet every preference that applies; a key
    that is absent, or present with a false value (an empty genre, a zero
    rating or year), imposes no constraint.  So every returned record is a
    record of the catalog with the genre that applies (up to letter case),
    a rating not below the minimum that applies, and a year within the
    bounds that apply. *)
Theorem recommend_applies_true_options (movies : list Movie)
    (p : Preferences) :
  recommend_movies movies p
  = slice_to (sorted Float.ltb Rating true (List.filter (meets p) movies)) 5
  /\ forall m, In m (recommend_movies movies p) ->
       In m movies
       /\ (forall g, applies_genre p g ->
                     Str.lower (Genre m) = Str.lower g)
       /\ (forall r, applies_min_rating p r ->
                     Float.geb (Rating m) r = true)
       /\ (forall y, applies_year_from p y -> y <= Year m)
       /\ (forall y, applies_year_to p y -> Year m <= y).
Proof.
  split; [apply recommend_movies_meets|].
  intros m Hm. rewrite recommend_movies_meets in Hm.
  rewrite slice_to_nonneg in Hm by lia.
  apply list_elem_of_In, elem_of_take in Hm as (i & Hm & _).
  apply list_elem_of_lookup_2, list_elem_of_In in Hm.
  apply sorted_In, List.filter_In in Hm as [Hin Hmeets].
  split; trivial. unfold meets, constraint in Hmeets.
  apply andb_prop in Hmeets as [Hmeets Hto].
  apply andb_prop in Hmeets as [Hmeets Hfrom].
  apply andb_prop in Hmeets as [Hgenre Hmin].
  repeat split.
  - intros g [Hg Hne]. rewrite Hg in Hgenre.
    destruct g as [|c g]; [congruence|]. now apply String.eqb_eq.
  - intros r [Hr Hne]. rewrite Hr in Hmin. unfold Float.truthy in Hmin.
    now rewrite Hne in Hmin.
  - intros y [Hy Hne]. rewrite Hy in Hfrom. unfold Int.truthy in Hfrom.
    destruct (Z.eqb_spec y 0); [contradiction|]. simpl in Hfrom. lia.
  - intros y [Hy Hne]. rewrite Hy in Hto. unfold Int.truthy in Hto.
    destruct (Z.eqb_spec y 0); [contradiction|]. simpl in Hto. lia.
Qed.

(** ** Loading *)

Lemma movie_of_interrupted (r : CsvRow) : movie_of (interrupted r) = None.
Proof.
  unfold movie_of, interrupted. simpl.
  now destruct (Float.of_string (Rating r)).
Qed.

Lemma catalog_app_None (l1 l2 : list StoredRow) :
  catalog l2 = None -> catalog (l1 ++ l2) = None.
Proof.
  intros H. induction l1 as [|r l1 IH]; simpl; trivial.
  rewrite IH. now destruct (movie_of r).
Qed.

Lemma coerce_all (rows : list CsvRow) :
  forallb coercible rows = true ->
  coerce (map store rows) = (true, map coerced rows).
Proof.
  induction rows as [|r rows IH]; simpl; trivial.
  intros H. apply andb_prop in H as [Hr Hrows].
  rewrite (IH Hrows). unfold coercible in Hr. unfold coerced.
  destruct (Float.of_string (Rating r)); [|discriminate].
  destruct (Int.of_string (Year r)); [|discriminate]. reflexivity.
Qed.

Lemma coerce_stops (pre post : list CsvRow) (bad : CsvRow) :
  forallb coercible pre = true -> coercible bad = false ->
  coerce (map store (pre ++ bad :: post))
  = (false, map coerced pre ++ interrupted bad :: map store post).
Proof.
  intros Hpre Hbad. induction pre as [|r pre IH]; simpl.
  - unfold coercible in Hbad. unfold interrupted.
    destruct (Float.of_string (Rating bad)); trivial.
    destruct (Int.of_string (Year bad)); [discriminate|]. reflexivity.
  - simpl in Hpre. apply andb_prop in Hpre as [Hr Hpre].
    rewrite (IH Hpre). unfold coercible in Hr. unfold coerced.
    destruct (Float.of_string (Rating r)); [|discriminate].
    destruct (Int.of_string (Year r)); [|discriminate]. reflexivity.
Qed.

(** The first row that is not coercible splits the table. *)
Lemma first_failure (rows : list CsvRow) :
  forallb coercible rows = false ->
  exists pre bad post,
    rows = pre ++ bad :: post /\
    forallb coercible pre = true /\ coercible bad = false.
Proof.
  induction rows as [|r rows IH]; simpl; [discriminate|].
  destruct (coercible r) eqn:E; simpl.
  - intros H. destruct (IH H) as (pre & bad & post & -> & Hpre & Hbad).
    exists (r :: pre), bad, post. simpl. now rewrite E, Hpre.
  - intros _. now exists [], r, rows.
Qed.

(** C1, as stated, fails: the second row's rating cannot be coerced,
    [load_movies] returns [False], and the record list is not empty: it
    holds the first row with its numbers and the second as read. *)
Lemma load_failure_keeps_rows :
  load_movies 1 (mkWorld [Table unrated_table] [] []) []
  = (Return false,
     mkWorld [] [] [OpenRead],
     [ mkRow "The Godfather" "Crime" (Num (Float.lit "9.2")) (Num 1972)
             "Francis Ford Coppola";
       mkRow "Untitled" "Drama" (Text "N/A") (Text "2024") "Unknown" ])
  /\ forallb coercible unrated_table = false.
Proof. split; vm_compute; reflexivity. Qed.

(** C1, amended: when the file is read and the coercion of a rating or a
    year fails for some row, [load_movies] returns [False] and the record
    list keeps every row read: the rows before the first one that fails
    are coerced, that row has its rating coerced when only its year
    fails, and the rows after it are as read.  The record list is then not
    a typed catalog. *)
Theorem load_failure_is_partial (depth : nat) (w : World)
    (rest : list read_reply) (rows : list CsvRow)
    (movies : list StoredRow) :
  reads w = Table rows :: rest ->
  forallb coercible rows = false ->
  exists pre bad post,
    rows = pre ++ bad :: post
    /\ forallb coercible pre = true
    /\ coercible bad = false
    /\ load_movies (S depth) w movies
       = (Return false,
          mkWorld rest (writes w) (trace w ++ [OpenRead]),
          map coerced pre ++ interrupted bad :: map store post)
    /\ catalog (map coerced pre ++ interrupted bad :: map store post)
       = None.
Proof.
  intros Hw Hrows.
  destruct (first_failure rows Hrows) as (pre & bad & post & -> & Hp & Hb).
  exists pre, bad, post. repeat split; trivial.
  - cbn [load_movies]. unfold open_read. rewrite Hw.
    now rewrite (coerce_stops pre post bad Hp Hb).
  - apply catalog_app_None. simpl. now rewrite movie_of_interrupted.
Qed.

Lemma load_failure_of_unrated_table :
  exists pre bad post,
    unrated_table = pre ++ bad :: post /\
    load_movies 1 (mkWorld [Table unrated_table] [] []) []
    = (Return false, mkWorld [] [] [OpenRead],
       map coerced pre ++ interrupted bad :: map store post).
Proof.
  destruct (load_failure_is_partial 0
              (mkWorld [Table unrated_table] [] []) [] unrated_table [])
    as (pre & bad & post & H1 & _ & _ & H2 & _).
  - reflexivity.
  - vm_compute. reflexivity.
  - exists pre, bad, post. split; [exact H1|exact H2].
Defined.

(** ** Missing file *)

(** C2, as stated, fails: after a second missing-file condition
    [load_movies] bootstraps and loads again: it reads three times, writes
    twice and returns [True] with the sample catalog. *)
Lemma load_retries_twice :
  (load_movies 3 missing_twice []).1.1 = Return true
  /\ count_reads (trace (load_movies 3 missing_twice []).1.2) = 3%nat
  /\ count_writes (trace (load_movies 3 missing_twice []).1.2) = 2%nat
  /\ catalog (load_movies 3 missing_twice []).2 = Some seed.
Proof. repeat split; vm_compute; reflexivity. Qed.

Lemma load_after_bootstraps (k depth : nat) (rs : list read_reply)
    (ws : list bool) (tr : list fs_op) (movies : list StoredRow) :
  load_movies (k + depth)
    (mkWorld (repeat NoSuchFile k ++ rs) (repeat true k ++ ws) tr) movies
  = load_movies depth
      (mkWorld rs ws (tr ++ concat (repeat bootstrap_round k))) movies.
Proof.
  revert tr. induction k as [|k IH]; intros tr.
  - simpl. now rewrite app_nil_r.
  - cbn [Nat.add repeat app load_movies].
    unfold open_read, create_sample_csv, open_write.
    cbn [reads writes trace]. rewrite IH.
    cbn [concat]. unfold bootstrap_round at 2. now rewrite <- !app_assoc.
Qed.

(** C2, amended: when the file does not exist, [load_movies] calls
    [create_sample_csv] and, when that succeeds, calls itself again; a
    further missing-file condition is handled in the same way, every
    time.  After [k] missing-file conditions, each followed by a
    successful bootstrap, it has read and written [k] times and goes on
    as a fresh call would (within the depth of the interpreter stack):
    when the next read finds a table, it returns what the coercion of that
    table gives; when the file is missing again and the bootstrap fails,
    it returns [False]. *)
Theorem load_retries_after_every_bootstrap (k depth : nat)
    (rs : list read_reply) (ws : list bool) (tr : list fs_op)
    (movies : list StoredRow) :
  load_movies (k + S depth)
    (mkWorld (repeat NoSuchFile k ++ rs) (repeat true k ++ ws) tr) movies
  = load_movies (S depth)
      (mkWorld rs ws (tr ++ concat (repeat bootstrap_round k))) movies
  /\ (forall rows,
        load_movies (k + S depth)
          (mkWorld (repeat NoSuchFile k ++ Table rows :: rs)
                   (repeat true k ++ ws) tr) movies
        = (Return (coerce (map store rows)).1,
           mkWorld rs ws
             (tr ++ concat (repeat bootstrap_round k) ++ [OpenRead]),
           (coerce (map store rows)).2))
  /\ load_movies (k + S depth)
       (mkWorld (repeat NoSuchFile k ++ NoSuchFile :: rs)
                (repeat true k ++ false :: ws) tr) movies
     = (Return false,
        mkWorld rs ws (tr ++ concat (repeat bootstrap_round (S k))),
        movies).
Proof.
  split; [apply load_after_bootstraps|]. split.
  - intros rows. rewrite load_after_bootstraps.
    cbn [load_movies]. unfold open_read. cbn [reads writes trace].
    destruct (coerce (map store rows)) as [ok movies1].
    now rewrite <- app_assoc.
  - rewrite load_after_bootstraps.
    cbn [load_movies]. unfold open_read, create_sample_csv, open_write.
    cbn [reads writes trace]. do 2 f_equal.
    replace (S k) with (k + 1)%nat by lia.
    rewrite repeat_app, concat_app. cbn [repeat concat].
    unfold bootstrap_round at 3. rewrite app_nil_r.
    now rewrite <- !app_assoc.
Qed.

(** A table whose rows are all coercible is loaded whole. *)
Lemma load_success (depth : nat) (w : World) (rest : list read_reply)
    (rows : list CsvRow) (movies : list StoredRow) :
  reads w = Table rows :: rest ->
  forallb coercible rows = true ->
  load_movies (S depth) w movies
  = (Return true, mkWorld rest (writes w) (trace w ++ [OpenRead]),
     map coerced rows)
  /\ exists typed, catalog (map coerced rows) = Some typed
                   /\ length typed = length rows.
Proof.
  intros Hw Hrows. split.
  - cbn [load_movies]. unfold open_read. rewrite Hw.
    now rewrite (coerce_all rows Hrows).
  - clear Hw. induction rows as [|r rows IH]; [now exists []|].
    simpl in Hrows. apply andb_prop in Hrows as [Hr Hrows].
    destruct (IH Hrows) as (typed & Htyped & Hlen).
    unfold coercible in Hr. cbn [map catalog]. rewrite Htyped.
    unfold movie_of, coerced. cbn [Rating Year].
    destruct (Float.of_string (Rating r)); [|discriminate].
    destruct (Int.of_string (Year r)); [|discriminate].
    eexists. split; [reflexivity|]. simpl. now rewrite Hlen.
Qed.

(** ** The average rating *)

(** C6, as stated, fails: the mean of the four ratings is above 7.975 and
    below 7.985, which rounds to 7.98 under either rule, and the statistics
    say 7.97: the mean is converted to a float, which is below 7.975,
    before it is rounded. *)
Lemma average_rating_double_rounding :
  (let* stats := get_statistics four_ratings in
   Return (average_rating stats)) = Return (Float.lit "7.97")
  /\ (7975 # 1000 < exact_mean four_ratings)%Q
  /\ (exact_mean four_ratings < 7985 # 1000)%Q
  /\ to_two_places Float.round_half_even (exact_mean four_ratings)
     = Float.lit "7.98"
  /\ to_two_places round_half_away (exact_mean four_ratings)
     = Float.lit "7.98"
  /\ Float.eqb (Float.lit "7.97") (Float.lit "7.98") = false.
Proof. repeat split; vm_compute; reflexivity. Qed.

Lemma round_half_even_nearest (q : Q) :
  nearest_even q (Float.round_half_even q).
Proof.
  destruct q as [n d]. unfold nearest_even, Float.round_half_even.
  cbn [Qnum Qden].
  pose proof (Z.div_mod n (Zpos d) ltac:(lia)) as Hn.
  pose proof (Z.mod_pos_bound n (Zpos d) ltac:(lia)) as Hr.
  set (k := n / Zpos d) in *. set (r := n mod Zpos d) in *.
  unfold Qle, Qeq, Qminus, Qplus, Qopp, inject_Z. cbn [Qnum Qden].
  destruct (Z.compare_spec (2 * r) (Zpos d)) as [E|E|E].
  - destruct (Z.even k) eqn:Ev.
    + repeat split; try nia. intros _. exact Ev.
    + repeat split; try nia. intros _.
      rewrite Z.even_add, Ev. reflexivity.
  - repeat split; nia.
  - repeat split; nia.
Qed.

Lemma round_two_places (s : bool) (m : positive) (e : Z) :
  let x := S754_finite s m e in
  exists k,
    nearest_even (Float.to_Q (SFabs x) * 100)%Q k /\
    Float.round x 2 = of_hundredths s k.
Proof.
  intros x. exists (Float.round_half_even (Float.to_Q (SFabs x) * 100)%Q).
  split; [apply round_half_even_nearest|]. reflexivity.
Qed.

Lemma no_special_values (data : list spec_float) :
  Forall (fun x => Float.is_finite x = true) data ->
  List.filter (fun x => negb (Float.is_finite x)) data = [].
Proof.
  induction 1 as [|y l Hy Hl IH]; trivial.
  cbn [List.filter]. now rewrite Hy.
Qed.

Lemma mean_of_finite (data : list spec_float) :
  data <> [] ->
  Forall (fun x => Float.is_finite x = true) data ->
  Float.mean data
  = Return (Float.of_Q
              (Qred (foldr Qplus 0 (map Float.to_Q data)
                     / inject_Z (Z.of_nat (length data)))%Q)).
Proof.
  intros Hne Hf. unfold Float.mean.
  destruct data as [|x data]; [congruence|].
  now rewrite (no_special_values (x :: data) Hf).
Qed.

(** C6, amended: on a non-empty catalog with finite ratings,
    [average_rating] is the float nearest to the mean of the ratings,
    rounded to two decimal places with ties to even: the float nearest to
    [k] hundredths, where [k] is the integer nearest to a hundred times
    that float (the even one at a tie).  For the ratings 9.3, 9.2 and 9.0
    it is 9.17. *)
Theorem average_rating_rounds_float_mean (movies : list Movie)
    (stats : Statistics) :
  Forall (fun m => Float.is_finite (Rating m) = true) movies ->
  get_statistics movies = Return stats ->
  let mean := Float.of_Q (Qred (exact_mean movies)) in
  average_rating stats = Float.round mean 2
  /\ (forall s m e, mean = S754_finite s m e ->
        exists k,
          nearest_even (Float.to_Q (SFabs mean) * 100)%Q k /\
          average_rating stats = of_hundredths s k)
  /\ (let* st := get_statistics [rate "9.3"; rate "9.2"; rate "9.0"] in
      Return (average_rating st)) = Return (Float.lit "9.17").
Proof.
  intros Hf H mean.
  destruct (get_statistics_fields movies stats H)
    as (mean' & Hmean & _ & Havg & _).
  assert (Hne : movies <> []).
  { intros ->. discriminate. }
  rewrite mean_of_finite in Hmean.
  - injection Hmean as Hmean. rewrite length_map in Hmean.
    fold (exact_mean movies) in Hmean. fold mean in Hmean. subst mean'.
    split; trivial. split; [|vm_compute; reflexivity].
    intros s m e E. rewrite Havg, E.
    apply (round_two_places s m e).
  - destruct movies; [congruence|discriminate].
  - rewrite List.Forall_map. exact Hf.
Qed.

Lemma average_rating_of_seed :
  exists stats,
    get_statistics seed = Return stats /\
    average_rating stats
    = Float.round (Float.of_Q (Qred (exact_mean seed))) 2.
Proof.
  eexists. split; [vm_compute; reflexivity|].
  eapply (average_rating_rounds_float_mean seed).
  - repeat constructor.
  - vm_compute. reflexivity.
Defined.

(** ** Loading: what every run does *)

Lemma coerce_true (rows : list CsvRow) :
  (coerce (map store rows)).1 = true -> forallb coercible rows = true.
Proof.
  intros H. destruct (forallb coercible rows) eqn:E; trivial.
  destruct (first_failure rows E) as (pre & bad & post & -> & Hpre & Hbad).
  rewrite (coerce_stops pre post bad Hpre Hbad) in H. discriminate.
Qed.

Lemma catalog_coerced (rows : list CsvRow) :
  forallb coercible rows = true ->
  exists typed,
    catalog (map coerced rows) = Some typed /\ Forall2 typed_row rows typed.
Proof.
  induction rows as [|r rows IH]; intros H.
  - exists []. split; [reflexivity|constructor].
  - simpl in H. apply andb_prop in H as [Hr Hrows].
    destruct (IH Hrows) as (typed & Htyped & Hall).
    unfold coercible in Hr. cbn [map catalog]. rewrite Htyped.
    unfold movie_of, coerced. cbn [Rating Year].
    destruct (Float.of_string (Rating r)) as [f|] eqn:Ef; [|discriminate].
    destruct (Int.of_string (Year r)) as [y|] eqn:Ey; [|discriminate].
    eexists. split; [reflexivity|].
    constructor; [|exact Hall]. now repeat split.
Qed.

(** Every run of [load_movies]: [k] missing-file conditions, each followed
    by a bootstrap, and then either a table is read and coerced, or the
    record list is left as it was. *)
Lemma load_movies_outcome (depth : nat) (w : World) (movies : list StoredRow)
    (r : result bool) (w' : World) (movies' : list StoredRow) :
  load_movies depth w movies = (r, w', movies') ->
  exists k,
    (k <= depth)%nat /\
    take k (reads w) = repeat NoSuchFile k /\
    ((exists rows,
        reads w !! k = Some (Table rows) /\
        r = Return (coerce (map store rows)).1 /\
        movies' = (coerce (map store rows)).2 /\
        reads w' = drop (S k) (reads w) /\
        trace w'
        = trace w ++ concat (repeat bootstrap_round k) ++ [OpenRead])
     \/ (r <> Return true /\ movies' = movies /\
         exists rest,
           trace w' = trace w ++ concat (repeat bootstrap_round k) ++ rest /\
           (rest = [] \/ rest = [OpenRead]))).
Proof.
  revert w r w' movies'.
  induction depth as [|depth IH]; intros w r w' movies' H.
  - cbn in H. injection H as <- <- <-.
    exists 0%nat. split; [lia|]. split; [reflexivity|]. right.
    split; [discriminate|]. split; [reflexivity|].
    exists []. cbn. rewrite app_nil_r. auto.
  - cbn [load_movies] in H. unfold open_read in H.
    destruct w as [rs ws tr]. cbn [reads writes trace] in *.
    destruct rs as [|[| |rows] rs].
    + injection H as <- <- <-.
      exists 0%nat. split; [lia|]. split; [reflexivity|]. right.
      split; [discriminate|]. split; [reflexivity|].
      exists [OpenRead]. cbn. auto.
    + unfold create_sample_csv, open_write in H. cbn [reads writes trace] in H.
      destruct ws as [|[|] ws].
      * injection H as <- <- <-.
        exists 1%nat. split; [lia|]. split; [reflexivity|]. right.
        split; [discriminate|]. split; [reflexivity|].
        exists []. cbn. rewrite <- app_assoc. auto.
      * apply IH in H as (k & Hk & Hreads & Hcases).
        cbn [reads writes trace] in *.
        exists (S k). split; [lia|]. split; [cbn; now rewrite Hreads|].
        destruct Hcases as [(rows & Hrow & -> & -> & Hrs & Htr)
                           |(Hr & -> & rest & Htr & Hrest)].
        -- left. exists rows. cbn [reads trace].
           repeat split; trivial.
           rewrite Htr. cbn [repeat concat]. unfold bootstrap_round at 2.
           now rewrite <- !app_assoc.
        -- right. split; [exact Hr|]. split; [reflexivity|].
           exists rest. split; [|exact Hrest].
           rewrite Htr. cbn [repeat concat]. unfold bootstrap_round at 2.
           now rewrite <- !app_assoc.
      * injection H as <- <- <-.
        exists 1%nat. split; [lia|]. split; [reflexivity|]. right.
        split; [discriminate|]. split; [reflexivity|].
        exists []. cbn. rewrite <- app_assoc. auto.
    + injection H as <- <- <-.
      exists 0%nat. split; [lia|]. split; [reflexivity|]. right.
      split; [discriminate|]. split; [reflexivity|].
      exists [OpenRead]. cbn. auto.
    + destruct (coerce (map store rows)) as [ok movies1] eqn:E.
      injection H as <- <- <-.
      exists 0%nat. split; [lia|]. split; [reflexivity|]. left.
      exists rows. rewrite E. cbn. auto.
Qed.

(** X1: when [load_movies] returns [True], the record list is the table
    that was read, after any number of missing-file conditions, row for
    row and in file order, with every rating and year replaced by the
    number it denotes: the list is a typed catalog. *)
Theorem load_true_is_typed_table (depth : nat) (w w' : World)
    (movies movies' : list StoredRow) :
  load_movies depth w movies = (Return true, w', movies') ->
  exists k rows typed,
    take k (reads w) = repeat NoSuchFile k
    /\ reads w !! k = Some (Table rows)
    /\ forallb coercible rows = true
    /\ movies' = map coerced rows
    /\ catalog movies' = Some typed
    /\ Forall2 typed_row rows typed.
Proof.
  intros H.
  apply load_movies_outcome in H
    as (k & _ & Hk & [(rows & Hrow & Hr & -> & _)|(Hr & _)]);
    [|congruence].
  assert (Hc : forallb coercible rows = true).
  { apply coerce_true. congruence. }
  destruct (catalog_coerced rows Hc) as (typed & Htyped & Hall).
  exists k, rows, typed. rewrite (coerce_all rows Hc). auto 10.
Qed.

Lemma load_of_missing_twice :
  exists k rows typed,
    take k (reads missing_twice) = repeat NoSuchFile k
    /\ reads missing_twice !! k = Some (Table rows)
    /\ forallb coercible rows = true
    /\ (load_movies 3 missing_twice []).2 = map coerced rows
    /\ catalog (load_movies 3 missing_twice []).2 = Some typed
    /\ Forall2 typed_row rows typed.
Proof.
  apply (load_true_is_typed_table 3 missing_twice
           (load_movies 3 missing_twice []).1.2 []).
  vm_compute. reflexivity.
Defined.

(** X2: unless a table is read, [load_movies] does not return [True] and
    leaves the record list of the instance as it was: a missing file whose
    bootstrap fails, a read that fails for another reason and an exhausted
    stack change nothing. *)
Theorem load_without_table_keeps_records (depth : nat) (w : World)
    (movies : list StoredRow) :
  (forall rows, ~ In (Table rows) (reads w)) ->
  (load_movies depth w movies).1.1 <> Return true
  /\ (load_movies depth w movies).2 = movies.
Proof.
  intros Hno.
  destruct (load_movies depth w movies) as [[r w'] movies'] eqn:H.
  apply load_movies_outcome in H
    as (k & _ & _ & [(rows & Hrow & _)|(Hr & -> & _)]).
  - exfalso. apply (Hno rows).
    apply list_elem_of_In. eapply list_elem_of_lookup_2. exact Hrow.
  - split; [exact Hr|reflexivity].
Qed.

Lemma load_of_unreadable_after_bootstrap :
  (load_movies 5 unreadable_after_bootstrap []).1.1 <> Return true
  /\ (load_movies 5 unreadable_after_bootstrap []).2 = [].
Proof.
  apply (load_without_table_keeps_records 5 unreadable_after_bootstrap []).
  intros rows [H|[H|[]]]; discriminate.
Defined.

(** X3: [load_movies] writes nothing but the sample table, and only right
    after a read that found the file missing: the operations of a run are
    [k] rounds of a read and a write of the sample table, one for each of
    the first [k] replies, which all report a missing file, followed by at
    most one more read.  A file that exists is never written. *)
Theorem load_writes_only_after_missing_file (depth : nat) (w : World)
    (movies : list StoredRow) :
  let w' := (load_movies depth w movies).1.2 in
  (exists k rest,
     (k <= depth)%nat
     /\ take k (reads w) = repeat NoSuchFile k
     /\ trace w' = trace w ++ concat (repeat bootstrap_round k) ++ rest
     /\ (rest = [] \/ rest = [OpenRead]))
  /\ (forall reply, head (reads w) = Some reply -> reply <> NoSuchFile ->
        count_writes (trace w') = count_writes (trace w)).
Proof.
  intros w'. subst w'.
  destruct (load_movies depth w movies) as [[r w'] movies'] eqn:H.
  cbn [fst snd]. split.
  - apply load_movies_outcome in H
      as (k & Hk & Hreads & [(rows & _ & _ & _ & _ & Htr)
                            |(_ & _ & rest & Htr & Hrest)]).
    + exists k, [OpenRead]. auto.
    + exists k, rest. auto.
  - intros reply Hhead Hreply.
    destruct depth as [|depth]; [cbn in H; now injection H as <- <- <-|].
    cbn [load_movies] in H. unfold open_read in H.
    destruct (reads w) as [|reply' rs] eqn:E; [discriminate|].
    injection Hhead as ->.
    unfold count_writes.
    destruct reply as [| |rows]; [congruence| |].
    + injection H as <- <- <-. cbn [trace].
      rewrite List.filter_app, length_app. cbn. lia.
    + destruct (coerce (map store rows)). injection H as <- <- <-.
      cbn [trace]. rewrite List.filter_app, length_app. cbn. lia.
Qed.

(** ** Filters *)



Lemma filter_sublist {A : Type} (p : A -> bool) (l : list A) :
  sublist (List.filter p l) l.
Proof.
  induction l as [|x l IH]; cbn [List.filter]; [constructor|].
  destruct (p x); now constructor.
Qed.


(** X5: [filter_by_year_range] keeps the records whose year lies between
    the bounds, both included; it returns the empty list when the start is
    after the end, and a range of a range is the range of the larger start
    and the smaller end. *)
Theorem year_ranges_intersect (movies : list Movie) (a b c d : Z) :
  (forall m, In m (filter_by_year_range movies a b)
             <-> In m movies /\ a <= Year m <= b)
  /\ (b < a -> filter_by_year_range movies a b = [])
  /\ filter_by_year_range (filter_by_year_range movies a b) c d
     = filter_by_year_range movies (Z.max a c) (Z.min b d).
Proof.
  unfold filter_by_year_range. split; [|split].
  - intros m. rewrite List.filter_In. split; intros [H E]; split; trivial; lia.
  - intros H. induction movies as [|m movies IH]; trivial.
    cbn [List.filter]. rewrite IH.
    destruct (a <=? Year m) eqn:E1, (Year m <=? b) eqn:E2; trivial; lia.
  - rewrite filter_filter. apply List.filter_ext. intros m. lia.
Qed.

Lemma leb_comparable (x y : spec_float) :
  Float.leb x y = true -> FloatOrder.comparable x /\ FloatOrder.comparable y.
Proof.
  unfold Float.leb, SFleb, FloatOrder.comparable.
  destruct x, y; simpl; try discriminate; auto.
Qed.

Lemma leb_trans (x y z : spec_float) :
  Float.leb x y = true -> Float.leb y z = true -> Float.leb x z = true.
Proof.
  intros H1 H2.
  destruct (leb_comparable _ _ H1) as [Cx Cy].
  destruct (leb_comparable _ _ H2) as [_ Cz].
  rewrite FloatOrderFacts.leb_not_ltb in * by assumption.
  apply negb_true_iff in H1, H2. apply negb_true_iff.
  now apply (FloatOrderFacts.ltb_negtrans z y x).
Qed.

Lemma eqb_leb (x y : spec_float) :
  Float.eqb x y = true -> Float.leb x y = true /\ Float.leb y x = true.
Proof.
  unfold Float.eqb, SFeqb, Float.leb, SFleb. intros H.
  destruct (SFcompare x y) as [[]|] eqn:E; try discriminate.
  split; trivial.
  destruct (FloatOrderFacts.eqb_comparable x y) as [Cx Cy].
  { unfold Float.eqb, SFeqb. now rewrite E. }
  rewrite FloatOrderFacts.SFcompare_rank in E by assumption.
  rewrite FloatOrderFacts.SFcompare_rank by assumption.
  injection E as E. apply FloatOrderFacts.lex_compare_Eq in E.
  rewrite E.
  now rewrite (proj2 (FloatOrderFacts.lex_compare_Eq (FloatOrder.rank y)
                        (FloatOrder.rank y)) eq_refl).
Qed.

(** X6: [filter_by_min_rating] never returns a record whose rating is
    NaN, and returns nothing for a threshold that is NaN.  Raising the
    threshold of a result gives the result of the higher threshold, and
    thresholds that compare equal, like [0.0] and [-0.0], give the same
    result. *)
Theorem min_rating_thresholds (movies : list Movie) (r r' : spec_float) :
  Forall rated (filter_by_min_rating movies r)
  /\ filter_by_min_rating movies Float.nan = []
  /\ (Float.leb r r' = true ->
      filter_by_min_rating (filter_by_min_rating movies r) r'
      = filter_by_min_rating movies r')
  /\ (Float.eqb r r' = true ->
      filter_by_min_rating movies r = filter_by_min_rating movies r').
Proof.
  unfold filter_by_min_rating, Float.geb. split; [|split; [|split]].
  - apply List.Forall_forall. intros m H.
    apply List.filter_In in H as [_ H].
    now apply leb_comparable in H.
  - induction movies as [|m movies IH]; [reflexivity|exact IH].
  - intros H. rewrite filter_filter. apply List.filter_ext. intros m.
    destruct (Float.leb r' (Rating m)) eqn:E.
    + now rewrite (leb_trans _ _ _ H E).
    + apply andb_false_r.
  - intros H. apply eqb_leb in H as [H1 H2].
    apply List.filter_ext. intros m.
    destruct (Float.leb r (Rating m)) eqn:E, (Float.leb r' (Rating m)) eqn:E';
      trivial.
    + now rewrite (leb_trans _ _ _ H2 E) in E'.
    + now rewrite (leb_trans _ _ _ H1 E') in E.
Qed.

(** X7: a genre finds records exactly when it is, up to letter case, one
    of the genres that [get_unique_genres] lists; every listed genre
    finds at least the records that carry it. *)
Theorem listed_genres_are_found (movies : list Movie) (g : string) :
  (filter_by_genre movies g <> []
   <-> exists g', In g' (get_unique_genres movies)
                  /\ Str.lower g' = Str.lower g)
  /\ (In g (get_unique_genres movies) ->
      forall m, In m movies -> Genre m = g -> In m (filter_by_genre movies g)).
Proof.
  split; [split|].
  - intros H. destruct (filter_by_genre movies g) as [|m l] eqn:E;
      [congruence|].
    assert (Hm : In m (filter_by_genre movies g)) by (rewrite E; now left).
    apply List.filter_In in Hm as [Hm Hg]. apply String.eqb_eq in Hg.
    exists (Genre m). split; trivial.
    apply get_unique_genres_In. now apply in_map.
  - intros (g' & Hg' & E) Hnil.
    apply get_unique_genres_In, in_map_iff in Hg' as (m & <- & Hm).
    assert (H : In m (filter_by_genre movies g)).
    { apply List.filter_In. split; trivial. now apply String.eqb_eq. }
    rewrite Hnil in H. destruct H.
  - intros _ m Hm <-. apply List.filter_In. split; trivial.
    apply String.eqb_refl.
Qed.

(** ** Rankings *)

Section RankingFacts.
Context {A K : Type}.
Variable lt : K -> K -> bool.
Variable key : A -> K.
Variable ok : A -> Prop.
Hypothesis lt_asym : forall x y,
  ok x -> ok y -> lt (key x) (key y) = true -> lt (key y) (key x) = false.
Hypothesis lt_negtrans : forall x y z,
  ok x -> ok y -> ok z ->
  lt (key x) (key y) = false -> lt (key y) (key z) = false ->
  lt (key x) (key z) = false.

(** An item goes to the front of a list none of whose items precedes
    it. *)
Lemma insort_front reverse x l :
  Forall (fun z => precedes lt key reverse z x = false) l ->
  insort lt key reverse x l = x :: l.
Proof.
  intros H. destruct H as [|z l Hz Hl]; trivial.
  cbn [insort]. now rewrite Hz.
Qed.

Lemma insort_filter_sorted reverse (p : A -> bool) x l :
  ok x -> Forall ok l ->
  StronglySorted (in_order lt key reverse) l ->
  List.filter p (insort lt key reverse x l)
  = if p x then insort lt key reverse x (List.filter p l)
    else List.filter p l.
Proof.
  intros Hx Hl Hs. induction Hs as [|y l Hs IH Hy].
  - cbn. now destruct (p x).
  - apply List.Forall_cons_iff in Hl as [Oy Ol].
    cbn [insort]. destruct (precedes lt key reverse y x) eqn:E.
    + cbn [List.filter]. rewrite (IH Ol).
      destruct (p y), (p x); trivial.
      cbn [insort]. now rewrite E.
    + assert (Hfront : Forall (fun z => precedes lt key reverse z x = false)
                              (y :: l)).
      { constructor; trivial.
        rewrite List.Forall_forall in Hy, Ol |- *. intros z Hz.
        apply (precedes_negtrans lt key ok lt_negtrans reverse z y x); auto.
        now apply Hy. }
      rewrite (insort_front reverse x (List.filter p (y :: l))); trivial.
      rewrite List.Forall_forall in Hfront |- *. intros z Hz.
      apply List.filter_In in Hz as [Hz _]. now apply Hfront.
Qed.

(** Sorting a selection gives the selection of the sorted list. *)
Lemma sorted_filter_commute reverse (p : A -> bool) l :
  Forall ok l ->
  sorted lt key reverse (List.filter p l)
  = List.filter p (sorted lt key reverse l).
Proof.
  induction 1 as [|x l Hx Hl IH]; trivial.
  cbn [sorted foldr]. fold (sorted lt key reverse l).
  rewrite insort_filter_sorted; trivial.
  - cbn [List.filter]. destruct (p x); trivial.
    cbn [sorted foldr]. fold (sorted lt key reverse (List.filter p l)).
    now rewrite IH.
  - rewrite List.Forall_forall in Hl |- *. intros z Hz. apply Hl.
    now apply (sorted_In lt key reverse l z).
  - now apply (sorted_in_order lt key ok lt_asym lt_negtrans).
Qed.

End RankingFacts.

Lemma ranking_filter (p : Movie -> bool) (movies : list Movie) :
  Forall rated movies ->
  sorted Float.ltb Rating true (List.filter p movies)
  = List.filter p (ranking movies).
Proof.
  intros H. unfold ranking.
  apply (sorted_filter_commute Float.ltb Rating rated); trivial.
  - apply rating_ltb_asym.
  - apply rating_ltb_negtrans.
Qed.

Lemma ranking_all (movies : list Movie) :
  get_top_movies movies (Z.of_nat (length movies)) None = ranking movies.
Proof.
  rewrite get_top_movies_scoped, slice_to_nonneg by lia. cbn [scoped].
  rewrite Nat2Z.id. apply take_ge. unfold ranking.
  now rewrite sorted_length.
Qed.

(** X8: on a catalog whose ratings are numbers, the ranking of a genre is
    the ranking of the whole catalog restricted to that genre: the top
    [n] records of a genre are the first [n] records of that genre in the
    overall ranking, in the same order. *)
Theorem genre_ranking_is_restricted_ranking (movies : list Movie) (n : Z)
    (g : string) :
  Forall rated movies ->
  g <> "" ->
  get_top_movies movies n (Some g)
  = slice_to
      (filter_by_genre
         (get_top_movies movies (Z.of_nat (length movies)) None) g) n.
Proof.
  intros Hr Hg. rewrite ranking_all, get_top_movies_scoped.
  destruct g as [|c g]; [congruence|]. cbn [scoped].
  unfold filter_by_genre at 1. now rewrite ranking_filter.
Qed.

Lemma genre_ranking_of_seed :
  get_top_movies seed 2 (Some "drama")
  = slice_to
      (filter_by_genre
         (get_top_movies seed (Z.of_nat (length seed)) None) "drama") 2.
Proof.
  apply (genre_ranking_is_restricted_ranking seed 2 "drama").
  - exact seed_rated.
  - discriminate.
Defined.

(** X9: on a catalog whose ratings are numbers, the recommendations are
    the first five records of the overall ranking that meet the
    preferences. *)
Theorem recommendations_follow_ranking (movies : list Movie)
    (p : Preferences) :
  Forall rated movies ->
  recommend_movies movies p
  = slice_to
      (List.filter (meets p)
         (get_top_movies movies (Z.of_nat (length movies)) None)) 5.
Proof.
  intros Hr. rewrite ranking_all, recommend_movies_meets.
  now rewrite ranking_filter.
Qed.

Lemma recommendations_of_seed :
  recommend_movies seed at_least_zero
  = slice_to
      (List.filter (meets at_least_zero)
         (get_top_movies seed (Z.of_nat (length seed)) None)) 5.
Proof.
  apply (recommendations_follow_ranking seed at_least_zero).
  exact seed_rated.
Defined.

(** X10: for every [n], [get_top_movies] returns a front part of the
    ranking of the records in scope, and never fails: the first [n]
    records for [n >= 0], nothing for [n = 0], and for [n < 0] the ranking
    without its last [-n] records.  The results for two counts of the same
    sign are nested. *)
Theorem top_movies_is_front_of_ranking (movies : list Movie) (n n' : Z)
    (genre : option string) :
  let top := get_top_movies movies n genre in
  let pool := scoped movies genre in
  (exists rest,
     ranking pool = top ++ rest
     /\ length rest
        = if 0 <=? n then (length pool - Z.to_nat n)%nat
          else Nat.min (Z.to_nat (- n)) (length pool))
  /\ get_top_movies movies 0 genre = []
  /\ (n <= n' -> 0 <= n \/ n' < 0 ->
      top `prefix_of` get_top_movies movies n' genre).
Proof.
  intros top pool. subst top.
  rewrite !get_top_movies_scoped. fold pool. fold (ranking pool).
  assert (Hlen : length (ranking pool) = length pool)
    by apply sorted_length.
  unfold slice_to. split; [|split].
  - destruct (0 <=? n) eqn:E.
    + exists (drop (Z.to_nat n) (ranking pool)).
      rewrite take_drop, length_drop. split; [reflexivity|lia].
    + exists (drop (length (ranking pool) - Z.to_nat (- n)) (ranking pool)).
      rewrite take_drop, length_drop. split; [reflexivity|lia].
  - reflexivity.
  - intros Hn Hs.
    destruct (0 <=? n) eqn:E, (0 <=? n') eqn:E'; try lia.
    + exists (take (Z.to_nat n' - Z.to_nat n) (drop (Z.to_nat n) (ranking pool))).
      rewrite take_take_drop. f_equal. lia.
    + set (k := (length (ranking pool) - Z.to_nat (- n))%nat).
      set (k' := (length (ranking pool) - Z.to_nat (- n'))%nat).
      exists (take (k' - k) (drop k (ranking pool))).
      rewrite take_take_drop. f_equal. lia.
Qed.

Lemma recommend_without_numbers (movies : list Movie) (p : Preferences) :
  given Float.truthy (min_rating p) = None ->
  given Int.truthy (year_from p) = None ->
  given Int.truthy (year_to p) = None ->
  recommend_movies movies p = get_top_movies movies 5 (genre p).
Proof.
  intros H1 H2 H3.
  unfold recommend_movies, get_top_movies, filter_by_genre.
  rewrite H1, H2, H3. now destruct (given Str.truthy (genre p)).
Qed.

(** X11: preferences without a usable number (each of [min_rating],
    [year_from] and [year_to] absent or zero) recommend the top five of
    the genre, and the top five of the whole catalog when the genre is
    absent or empty too. *)
Theorem recommend_by_genre_is_top_five (movies : list Movie)
    (p : Preferences) :
  given Float.truthy (min_rating p) = None ->
  given Int.truthy (year_from p) = None ->
  given Int.truthy (year_to p) = None ->
  recommend_movies movies p = get_top_movies movies 5 (genre p)
  /\ recommend_movies movies (mkPreferences None None None None)
     = get_top_movies movies 5 None.
Proof.
  intros H1 H2 H3. split; [|reflexivity].
  now apply recommend_without_numbers.
Qed.

Lemma recommend_by_genre_up_to_year_zero :
  recommend_movies seed up_to_year_zero
  = get_top_movies seed 5 (genre up_to_year_zero)
  /\ recommend_movies seed (mkPreferences None None None None)
     = get_top_movies seed 5 None.
Proof.
  apply (recommend_by_genre_is_top_five seed up_to_year_zero);
    reflexivity.
Defined.

(** X12: with a non-empty genre and a rating and years other than zero,
    [recommend_movies] returns the top five of what the three filters of
    the class give one after the other: [filter_by_genre], then
    [filter_by_min_rating], then [filter_by_year_range]. *)
Theorem recommend_composes_filters (movies : list Movie) (g : string)
    (r : spec_float) (y_from y_to : Z) :
  g <> "" -> Float.eqb r (S754_zero false) = false ->
  y_from <> 0 -> y_to <> 0 ->
  recommend_movies movies (all_four g r y_from y_to)
  = get_top_movies
      (filter_by_year_range
         (filter_by_min_rating (filter_by_genre movies g) r) y_from y_to)
      5 None.
Proof.
  intros Hg Hr Hf Ht.
  unfold recommend_movies, all_four, given.
  cbn [genre min_rating year_from year_to].
  unfold Float.truthy, Int.truthy. rewrite Hr.
  destruct g as [|c g]; [congruence|]. cbn [Str.truthy negb].
  destruct (Z.eqb_spec y_from 0) as [|_]; [congruence|].
  destruct (Z.eqb_spec y_to 0) as [|_]; [congruence|].
  cbn [negb]. unfold get_top_movies. cbn [given].
  unfold filter_by_year_range, filter_by_min_rating, filter_by_genre.
  do 2 f_equal. rewrite (filter_filter (fun m => Year m >=? y_from)).
  apply List.filter_ext. intros m. now rewrite Z.geb_leb.
Qed.

Lemma recommend_crime_of_the_nineties :
  recommend_movies seed (all_four "crime" (Float.lit "8.5") 1990 1999)
  = get_top_movies
      (filter_by_year_range
         (filter_by_min_rating (filter_by_genre seed "crime")
            (Float.lit "8.5")) 1990 1999)
      5 None.
Proof.
  apply (recommend_composes_filters seed "crime" (Float.lit "8.5") 1990 1999).
  - discriminate.
  - vm_compute. reflexivity.
  - lia.
  - lia.
Defined.

(** The first [n] records of a ranking. *)
Lemma ranking_front (pool : list Movie) (n : nat) :
  Forall rated pool ->
  let top := take n (ranking pool) in
  length top = Nat.min n (length pool)
  /\ descending top
  /\ (exists rest,
        Permutation (top ++ rest) pool /\
        forall a b, In a top -> In b rest ->
                    Float.geb (Rating a) (Rating b) = true)
  /\ (forall r, exists rest,
        List.filter (fun m => Float.eqb r (Rating m)) pool
        = List.filter (fun m => Float.eqb r (Rating m)) top ++ rest).
Proof.
  intros HS top.
  pose proof (sorted_descending pool HS) as Hd. fold (ranking pool) in Hd.
  assert (Hlen : length (ranking pool) = length pool) by apply sorted_length.
  assert (Hperm : Permutation (ranking pool) pool)
    by apply sorted_Permutation.
  rewrite <- (take_drop n (ranking pool)) in Hd, Hperm. fold top in Hd, Hperm.
  split; [|split; [|split]].
  - unfold top. rewrite length_take. now rewrite Hlen.
  - unfold descending in *. now apply StronglySorted_app_1_l in Hd.
  - exists (drop n (ranking pool)). split; trivial.
    intros a b Ha Hb. unfold descending in Hd.
    apply (StronglySorted_app_1_elem_of _ _ _ a b Hd);
      now apply list_elem_of_In.
  - intros r. rewrite <- (sorted_stable r pool). apply filter_take_prefix.
Qed.

(** X13: on a catalog whose ratings are numbers, [recommend_movies]
    returns at most five records, and all the records that meet the
    preferences when there are at most five of them.  The result is in
    descending order of rating, no record that meets the preferences and is
    left out is rated above a returned one, and records of one rating come
    in the order of the catalog. *)
Theorem recommend_ranks_best_matches (movies : list Movie)
    (p : Preferences) :
  Forall rated movies ->
  let matching := List.filter (meets p) movies in
  let top := recommend_movies movies p in
  length top = Nat.min 5 (length matching)
  /\ descending top
  /\ (exists rest,
        Permutation (top ++ rest) matching /\
        forall a b, In a top -> In b rest ->
                    Float.geb (Rating a) (Rating b) = true)
  /\ (forall r, exists rest,
        List.filter (fun m => Float.eqb r (Rating m)) matching
        = List.filter (fun m => Float.eqb r (Rating m)) top ++ rest).
Proof.
  intros Hr matching top.
  assert (HS : Forall rated matching).
  { rewrite List.Forall_forall in Hr |- *. intros m Hm.
    apply List.filter_In in Hm. now apply Hr. }
  assert (Htop : top = take 5 (ranking matching)).
  { unfold top. now rewrite recommend_movies_meets. }
  rewrite Htop. exact (ranking_front matching 5 HS).
Qed.

Lemma recommend_ranks_seed :
  length (recommend_movies seed at_least_zero)
  = Nat.min 5 (length (List.filter (meets at_least_zero) seed))
  /\ descending (recommend_movies seed at_least_zero).
Proof.
  destruct (recommend_ranks_best_matches seed at_least_zero seed_rated)
    as (H1 & H2 & _).
  split; [exact H1|exact H2].
Defined.

(** ** Statistics and the order of the catalog *)

Lemma filter_Permutation_list {A : Type} (p : A -> bool) (l l' : list A) :
  Permutation l l' -> Permutation (List.filter p l) (List.filter p l').
Proof.
  induction 1 as [|x l l' H IH|x y l|l l' l'' H1 IH1 H2 IH2];
    cbn [List.filter].
  - constructor.
  - destruct (p x); [now constructor|exact IH].
  - destruct (p x), (p y); try reflexivity. apply perm_swap.
  - now transitivity (List.filter p l').
Qed.

Lemma sum_Permutation (l l' : list Q) :
  Permutation l l' -> (foldr Qplus 0 l == foldr Qplus 0 l')%Q.
Proof.
  induction 1 as [|x l l' H IH|x y l|l l' l'' H1 IH1 H2 IH2];
    cbn [foldr].
  - reflexivity.
  - now rewrite IH.
  - ring.
  - now transitivity (foldr Qplus 0 l')%Q.
Qed.

Lemma mean_Permutation (data data' : list spec_float) :
  Permutation data data' ->
  Forall (fun x => Float.is_finite x = true) data ->
  Float.mean data = Float.mean data'.
Proof.
  intros Hp Hf.
  destruct data as [|x data].
  { apply Permutation_nil in Hp. now subst. }
  assert (Hne : data' <> []).
  { intros ->. symmetry in Hp. now apply Permutation_nil in Hp. }
  assert (Hf' : Forall (fun x => Float.is_finite x = true) data').
  { rewrite List.Forall_forall in Hf |- *. intros y Hy. apply Hf.
    eapply Permutation_in; [symmetry; exact Hp|exact Hy]. }
  rewrite !mean_of_finite; trivial; [|discriminate].
  do 2 f_equal. apply Qred_complete.
  rewrite (Permutation_length Hp).
  now rewrite (sum_Permutation _ _ (Permutation_map Float.to_Q Hp)).
Qed.

Lemma finite_rated (movies : list Movie) :
  Forall finitely_rated movies -> Forall rated movies.
Proof.
  apply List.Forall_impl. intros m. unfold finitely_rated, rated.
  now destruct (Rating m).
Qed.

Lemma leb_antisym (x y : spec_float) :
  Float.leb x y = true -> Float.leb y x = true -> Float.eqb x y = true.
Proof.
  intros H1 H2. destruct (leb_comparable _ _ H1) as [Cx Cy].
  unfold Float.leb, SFleb, Float.eqb, SFeqb in *.
  rewrite FloatOrderFacts.SFcompare_rank in * by assumption.
  destruct (FloatOrder.lex_compare (FloatOrder.rank x) (FloatOrder.rank y))
    eqn:E; trivial.
  apply FloatOrderFacts.lex_compare_Lt in E.
  apply FloatOrderFacts.lex_compare_Gt in E. now rewrite E in H2.
Qed.

Lemma genre_entry_Permutation (movies movies' : list Movie) (g : string)
    (gs gs' : GenreStats) :
  Permutation movies movies' -> Forall finitely_rated movies ->
  genre_entry movies g gs -> genre_entry movies' g gs' -> gs = gs'.
Proof.
  intros Hp Hf (Hc & mean & Hm & Ha) (Hc' & mean' & Hm' & Ha').
  set (p := fun m : Movie => String.eqb (Str.lower (Genre m)) (Str.lower g))
    in *.
  pose proof (filter_Permutation_list p _ _ Hp) as Hq.
  rewrite (mean_Permutation _ _ (Permutation_map Rating Hq)) in Hm.
  - rewrite Hm in Hm'. injection Hm' as <-.
    destruct gs, gs'. cbn in *. subst.
    now rewrite (Permutation_length Hq).
  - rewrite List.Forall_map. rewrite List.Forall_forall in Hf |- *.
    intros m Hin. apply List.filter_In in Hin as [Hin _]. now apply Hf.
Qed.

Lemma entries_determined {A B : Type} (P Q : A -> B -> Prop)
    (l l' : list (A * B)) :
  (forall a b b', P a b -> Q a b' -> b = b') ->
  map fst l = map fst l' ->
  Forall (fun e => P e.1 e.2) l -> Forall (fun e => Q e.1 e.2) l' ->
  l = l'.
Proof.
  intros Hdet. revert l'.
  induction l as [|[a b] l IH]; intros [|[a' b'] l'] Hk Hl Hl';
    try discriminate; trivial.
  cbn in Hk. injection Hk as <- Hk.
  apply List.Forall_cons_iff in Hl as [Hb Hl].
  apply List.Forall_cons_iff in Hl' as [Hb' Hl'].
  cbn in Hb, Hb'. rewrite (Hdet a b b' Hb Hb').
  f_equal. now apply IH.
Qed.

Lemma get_unique_genres_Permutation (movies movies' : list Movie) :
  Permutation movies movies' ->
  get_unique_genres movies = get_unique_genres movies'.
Proof.
  intros Hp. apply ascending_unique;
    try apply get_unique_genres_ascending;
    try apply get_unique_genres_NoDup.
  intros g. rewrite !get_unique_genres_In.
  split; apply Permutation_in; [|symmetry]; now apply Permutation_map.
Qed.

Lemma first_rated_In (r : spec_float) (movies : list Movie) (m : Movie) :
  first_rated r movies = Some m -> In m movies.
Proof. intros H. now apply List.find_some in H. Qed.

Lemma first_of_year_In (y : Z) (movies : list Movie) (m : Movie) :
  first_of_year y movies = Some m -> In m movies.
Proof. intros H. now apply List.find_some in H. Qed.

(** X14: the statistics of a catalog with finite ratings do not depend on
    the order of its records, except for which record stands for an
    extreme that several records share: the number of records, the average
    rating and the statistics by genre are the same for every order, and so
    are the highest and lowest rating and the oldest and newest year. *)
Theorem statistics_invariant_under_reordering (movies movies' : list Movie)
    (stats : Statistics) :
  Permutation movies movies' ->
  Forall finitely_rated movies ->
  get_statistics movies = Return stats ->
  exists stats',
    get_statistics movies' = Return stats'
    /\ total_movies stats' = total_movies stats
    /\ average_rating stats' = average_rating stats
    /\ genre_statistics stats' = genre_statistics stats
    /\ Float.eqb (Rating (highest_rated stats'))
                 (Rating (highest_rated stats)) = true
    /\ Float.eqb (Rating (lowest_rated stats'))
                 (Rating (lowest_rated stats)) = true
    /\ Year (oldest_movie stats') = Year (oldest_movie stats)
    /\ Year (newest_movie stats') = Year (newest_movie stats).
Proof.
  intros Hp Hf H.
  assert (Hf' : Forall finitely_rated movies').
  { rewrite List.Forall_forall in Hf |- *. intros y Hy. apply Hf.
    eapply Permutation_in; [symmetry; exact Hp|exact Hy]. }
  pose proof (finite_rated _ Hf) as Hr.
  pose proof (finite_rated _ Hf') as Hr'.
  assert (Hin : forall m, In m movies <-> In m movies').
  { intros m. split; apply Permutation_in; [|symmetry]; exact Hp. }
  destruct movies' as [|m' rest'] eqn:E.
  { symmetry in Hp. apply Permutation_nil in Hp. subst. discriminate. }
  destruct (get_statistics_returns m' rest') as [stats' H'].
  rewrite <- E in *. clear E m' rest'.
  exists stats'. split; [exact H'|].
  destruct (get_statistics_fields movies stats H)
    as (mean & Hmean & Htot & Havg & Hhi & Hlo & _ & Hold & Hnew).
  destruct (get_statistics_fields movies' stats' H')
    as (mean' & Hmean' & Htot' & Havg' & Hhi' & Hlo' & _ & Hold' & Hnew').
  destruct (genre_statistics_entries movies stats H) as [Hkeys Hentries].
  destruct (genre_statistics_entries movies' stats' H') as [Hkeys' Hentries'].
  apply (py_max_rating _ _ Hr) in Hhi as [Hhi1 Hhi2].
  apply (py_max_rating _ _ Hr') in Hhi' as [Hhi1' Hhi2'].
  apply (py_min_rating _ _ Hr) in Hlo as [Hlo1 Hlo2].
  apply (py_min_rating _ _ Hr') in Hlo' as [Hlo1' Hlo2'].
  apply py_min_year in Hold as [Hold1 Hold2].
  apply py_min_year in Hold' as [Hold1' Hold2'].
  apply py_max_year in Hnew as [Hnew1 Hnew2].
  apply py_max_year in Hnew' as [Hnew1' Hnew2'].
  apply first_rated_In in Hhi2, Hhi2', Hlo2, Hlo2'.
  apply first_of_year_In in Hold2, Hold2', Hnew2, Hnew2'.
  rewrite List.Forall_forall in Hhi1, Hhi1', Hlo1, Hlo1', Hold1, Hold1',
    Hnew1, Hnew1'.
  repeat split.
  - rewrite Htot, Htot'. symmetry. now apply Permutation_length.
  - rewrite Havg, Havg'.
    rewrite (mean_Permutation _ _ (Permutation_map Rating Hp)) in Hmean.
    + congruence.
    + now rewrite List.Forall_map.
  - apply (entries_determined (genre_entry movies') (genre_entry movies));
      trivial.
    + intros g gs' gs Hg' Hg. symmetry.
      now apply (genre_entry_Permutation movies movies' g).
    + rewrite Hkeys, Hkeys'. symmetry.
      now apply get_unique_genres_Permutation.
  - apply leb_antisym.
    + apply Hhi1. now apply Hin.
    + apply Hhi1'. now apply Hin.
  - apply leb_antisym.
    + apply Hlo1'. now apply Hin.
    + apply Hlo1. now apply Hin.
  - apply Z.le_antisymm.
    + apply Hold1'. now apply Hin.
    + apply Hold1. now apply Hin.
  - apply Z.le_antisymm.
    + apply Hnew1. now apply Hin.
    + apply Hnew1'. now apply Hin.
Qed.

Lemma statistics_of_seed_reversed :
  exists stats',
    get_statistics seed_reversed = Return stats'
    /\ (let* stats := get_statistics seed in
        Return (average_rating stats)) = Return (average_rating stats').
Proof.
  destruct (get_statistics seed) as [stats|e] eqn:H;
    [|vm_compute in H; discriminate].
  destruct (statistics_invariant_under_reordering seed seed_reversed stats)
    as (stats' & H' & _ & Havg & _).
  - apply Permutation_rev.
  - repeat constructor.
  - exact H.
  - exists stats'. split; [exact H'|]. cbn [bind]. now rewrite Havg.
Defined.

(** ** Statistics and the catalog *)

Section ExtremeFacts.
Context {A K : Type}.
Variable lt : K -> K -> bool.
Variable key : A -> K.

Lemma max_from_In (best : A) (l : list A) :
  In (max_from lt key best l) (best :: l).
Proof.
  revert best. induction l as [|x l IH]; intros best; cbn [max_from].
  - now left.
  - destruct (lt (key best) (key x)).
    + right. apply IH.
    + destruct (IH best) as [H|H]; [now left|right; now right].
Qed.

Lemma min_from_In (best : A) (l : list A) :
  In (min_from lt key best l) (best :: l).
Proof.
  revert best. induction l as [|x l IH]; intros best; cbn [min_from].
  - now left.
  - destruct (lt (key x) (key best)).
    + right. apply IH.
    + destruct (IH best) as [H|H]; [now left|right; now right].
Qed.

Lemma py_max_In (l : list A) (m : A) :
  py_max lt key l = Return m -> In m l.
Proof.
  destruct l as [|x l]; [discriminate|]. intros [= <-]. apply max_from_In.
Qed.

Lemma py_min_In (l : list A) (m : A) :
  py_min lt key l = Return m -> In m l.
Proof.
  destruct l as [|x l]; [discriminate|]. intros [= <-]. apply min_from_In.
Qed.

End ExtremeFacts.

Lemma genre_total_cons (m : Movie) (movies : list Movie)
    (genres : list string) :
  genre_total (m :: movies) genres
  = (length (List.filter
               (fun g => String.eqb (Str.lower (Genre m)) (Str.lower g))
               genres)
     + genre_total movies genres)%nat.
Proof.
  induction genres as [|g genres IH]; trivial.
  change (genre_total (m :: movies) (g :: genres))
    with (length (filter_by_genre (m :: movies) g)
          + genre_total (m :: movies) genres)%nat.
  change (genre_total movies (g :: genres))
    with (length (filter_by_genre movies g) + genre_total movies genres)%nat.
  rewrite IH. unfold filter_by_genre. cbn [List.filter].
  destruct (String.eqb (Str.lower (Genre m)) (Str.lower g));
    cbn [length]; lia.
Qed.

Lemma filter_hit {A : Type} (p : A -> bool) (l : list A) (x : A) :
  In x l -> p x = true -> (1 <= length (List.filter p l))%nat.
Proof.
  intros Hx Hp.
  assert (H : In x (List.filter p l)) by now apply List.filter_In.
  destruct (List.filter p l); [destruct H|cbn; lia].
Qed.

Lemma filter_none {A : Type} (p : A -> bool) (l : list A) :
  (forall z, In z l -> p z = false) -> List.filter p l = [].
Proof.
  induction l as [|y l IH]; intros H; trivial.
  cbn [List.filter]. rewrite (H y) by now left.
  apply IH. intros z Hz. apply H. now right.
Qed.

Lemma filter_single_hit {A : Type} (p : A -> bool) (l : list A) (x : A) :
  NoDup l -> In x l -> p x = true ->
  (forall y, In y l -> p y = true -> y = x) ->
  length (List.filter p l) = 1%nat.
Proof.
  intros Hn. induction Hn as [|y l Hy Hn IH]; intros Hx Hp Hu.
  - destruct Hx.
  - cbn [List.filter]. destruct (p y) eqn:Py.
    + assert (y = x) as -> by (apply Hu; [now left|exact Py]).
      replace (List.filter p l) with (@nil A); trivial.
      symmetry. apply filter_none. intros z Hz.
      destruct (p z) eqn:Pz; trivial.
      assert (z = x) as -> by (apply Hu; [now right|exact Pz]).
      destruct Hy. now apply list_elem_of_In.
    + apply IH; trivial.
      * destruct Hx as [->|Hx]; [congruence|exact Hx].
      * intros z Hz. apply Hu. now right.
Qed.

(** Every record is counted for its own genre, and for no other genre
    when no genre has two spellings. *)
Lemma genre_total_bounds (movies pool : list Movie) :
  (forall m, In m pool -> In m movies) ->
  (length pool <= genre_total pool (get_unique_genres movies))%nat
  /\ (one_spelling movies ->
      genre_total pool (get_unique_genres movies) = length pool).
Proof.
  induction pool as [|m pool IH]; intros Hsub.
  - split; [|intros _];
      induction (get_unique_genres movies) as [|g gs IHg]; cbn; trivial; lia.
  - destruct IH as [IH1 IH2]; [intros x Hx; apply Hsub; now right|].
    assert (Hm : In (Genre m) (get_unique_genres movies)).
    { apply get_unique_genres_In, in_map, Hsub. now left. }
    rewrite genre_total_cons. split.
    + pose proof (filter_hit
                    (fun g => String.eqb (Str.lower (Genre m)) (Str.lower g))
                    _ _ Hm (String.eqb_refl _)).
      cbn [length]. lia.
    + intros Hone. rewrite (IH2 Hone).
      rewrite (filter_single_hit _ _ (Genre m)); trivial.
      * apply get_unique_genres_NoDup.
      * apply String.eqb_refl.
      * intros g Hg E. apply String.eqb_eq in E.
        apply get_unique_genres_In, in_map_iff in Hg as (m' & <- & Hm').
        symmetry. apply Hone; trivial. apply Hsub. now left.
Qed.

Lemma sum_counts_genre_total (movies : list Movie)
    (d : list (string * GenreStats)) :
  Forall (fun e => genre_entry movies e.1 e.2) d ->
  sum_counts d = genre_total movies (map fst d).
Proof.
  induction 1 as [|[g gs] d [Hc _] Hd IH]; trivial.
  cbn [fst snd] in Hc.
  change (sum_counts ((g, gs) :: d)) with (count gs + sum_counts d)%nat.
  change (genre_total movies (map fst ((g, gs) :: d)))
    with (length (filter_by_genre movies g)
          + genre_total movies (map fst d))%nat.
  now rewrite IH, Hc.
Qed.

(** X15: the statistics describe the catalog they are computed from: the
    total is the number of records; the four records reported are records
    of the catalog; every genre entry counts at least one record and at
    most all of them; the counts add up to at least the total, and to the
    total exactly when no genre is spelled in two ways that differ by
    letter case. *)
Theorem statistics_describe_catalog (movies : list Movie)
    (stats : Statistics) :
  get_statistics movies = Return stats ->
  total_movies stats = length movies
  /\ (In (highest_rated stats) movies /\ In (lowest_rated stats) movies
      /\ In (oldest_movie stats) movies /\ In (newest_movie stats) movies)
  /\ Forall (fun e => (1 <= count e.2 <= total_movies stats)%nat)
            (genre_statistics stats)
  /\ (total_movies stats <= sum_counts (genre_statistics stats))%nat
  /\ (one_spelling movies ->
      sum_counts (genre_statistics stats) = total_movies stats).
Proof.
  intros H.
  destruct (get_statistics_fields movies stats H)
    as (mean & _ & Htot & _ & Hhi & Hlo & _ & Hold & Hnew).
  destruct (genre_statistics_entries movies stats H) as [Hkeys Hentries].
  destruct (genre_total_bounds movies movies (fun m Hm => Hm)) as [Hge Heq].
  rewrite (sum_counts_genre_total movies _ Hentries), Hkeys, Htot.
  split; [reflexivity|]. split.
  { apply py_max_In in Hhi, Hnew. apply py_min_In in Hlo, Hold. auto. }
  split; [|split; [exact Hge|exact Heq]].
  apply List.Forall_forall. intros [g gs] Hin.
  assert (Hg : In g (map Genre movies)).
  { apply get_unique_genres_In. rewrite <- Hkeys.
    apply in_map_iff. now exists (g, gs). }
  rewrite List.Forall_forall in Hentries.
  destruct (Hentries _ Hin) as [Hc _]. cbn [fst snd] in *. rewrite Hc.
  fold (filter_by_genre movies g). split.
  - pose proof (filter_by_genre_own movies g Hg).
    destruct (filter_by_genre movies g); [congruence|cbn; lia].
  - apply List.filter_length_le.
Qed.

Lemma statistics_describe_seed :
  exists stats,
    get_statistics seed = Return stats /\
    total_movies stats = length seed /\
    (total_movies stats <= sum_counts (genre_statistics stats))%nat.
Proof.
  eexists. split; [vm_compute; reflexivity|].
  edestruct (statistics_describe_catalog seed) as (H1 & _ & _ & H2 & _).
  - vm_compute. reflexivity.
  - split; [exact H1|exact H2].
Defined.

(** X16: choice 7 of the menu lists the genres of [get_unique_genres],
    each with the count that the statistics give for it, which is at least
    one. *)
Theorem genre_counts_match_statistics (movies : list Movie) :
  map fst (Session.genre_counts movies) = get_unique_genres movies
  /\ Forall (fun c => (1 <= c.2 <= length movies)%nat)
            (Session.genre_counts movies)
  /\ (forall stats,
        get_statistics movies = Return stats ->
        Session.genre_counts movies
        = map (fun e => (e.1, count e.2)) (genre_statistics stats)).
Proof.
  unfold Session.genre_counts. split; [|split].
  - rewrite map_map. cbn [fst]. apply map_id.
  - apply List.Forall_map, List.Forall_forall. intros g Hg. cbn [snd].
    apply get_unique_genres_In in Hg. split.
    + pose proof (filter_by_genre_own movies g Hg).
      destruct (filter_by_genre movies g); [congruence|cbn; lia].
    + apply List.filter_length_le.
  - intros stats H.
    destruct (genre_statistics_entries movies stats H) as [<- Hentries].
    rewrite map_map.
    induction Hentries as [|[g gs] d [Hc _] Hd IH]; trivial.
    cbn [map fst snd] in *. now rewrite IH, Hc.
Qed.

(** ** Sessions *)

Lemma menu_round (movies : list Movie) (line : string) (rest : list string) :
  Session.menu movies (line :: rest)
  = match (round movies line rest).2 with
    | Continue rest' =>
        ((round movies line rest).1 ++ (Session.menu movies rest').1,
         (Session.menu movies rest').2)
    | Stop e => ((round movies line rest).1, e)
    end.
Proof.
  cbn [Session.menu]. unfold round, Session.emit.
  repeat match goal with
         | |- context [if ?b then _ else _] => destruct b
         | |- context [match ?l with [] => _ | _ :: _ => _ end] =>
             is_var l; destruct l
         | |- context [match ?o with Some _ => _ | None => _ end] =>
             destruct o
         | |- context [match ?o with Return _ => _ | Raise _ => _ end] =>
             destruct o
         | |- context [let '(_, _) := ?p in _] => destruct p
         end;
    cbn [fst snd app]; rewrite <- ?app_assoc; reflexivity.
Qed.

Ltac round_cases :=
  unfold round;
  repeat match goal with
         | |- context [if ?b then _ else _] => destruct b eqn:?
         | |- context [match ?l with [] => _ | _ :: _ => _ end] =>
             is_var l; destruct l
         | |- context [match ?o with Some _ => _ | None => _ end] =>
             destruct o eqn:?
         | |- context [match ?o with Return _ => _ | Raise _ => _ end] =>
             destruct o eqn:?
         end.

Lemma round_consumes (movies : list Movie) (line : string)
    (rest rest' : list string) :
  (round movies line rest).2 = Continue rest' ->
  (length rest' <= length rest)%nat.
Proof.
  round_cases; cbn [fst snd]; intros [= <-]; cbn [length]; lia.
Qed.

(** Induction on the rounds of a session. *)
Lemma menu_rounds (movies : list Movie)
    (P : list string -> list Session.event * Session.ending -> Prop) :
  P [] ([], Session.EndOfInput) ->
  (forall line rest e,
     (round movies line rest).2 = Stop e ->
     P (line :: rest) ((round movies line rest).1, e)) ->
  (forall line rest rest',
     (round movies line rest).2 = Continue rest' ->
     P rest' (Session.menu movies rest') ->
     P (line :: rest)
       ((round movies line rest).1 ++ (Session.menu movies rest').1,
        (Session.menu movies rest').2)) ->
  forall inputs, P inputs (Session.menu movies inputs).
Proof.
  intros Hnil Hstop Hcont inputs.
  induction inputs as [inputs IH] using (induction_ltof1 _ (@length string)).
  destruct inputs as [|line rest]; [exact Hnil|].
  rewrite menu_round.
  destruct (round movies line rest).2 as [rest'|e] eqn:E.
  - apply Hcont; trivial. apply IH. unfold ltof.
    apply round_consumes in E. cbn [length]. lia.
  - now apply Hstop.
Qed.

Lemma answer_rejects {A : Type} (parse : string -> option A)
    (line : string) :
  (Session.answer parse line).2 = [] \/
  (Session.answer parse line).2 = [Session.InvalidNumber].
Proof.
  unfold Session.answer.
  destruct (Str.truthy (Session.strip line)); auto.
  destruct (parse (Session.strip line)); auto.
Qed.

Lemma answer_no_farewell {A : Type} (parse : string -> option A)
    (line : string) :
  ~ In Session.Goodbye (Session.answer parse line).2.
Proof.
  destruct (answer_rejects parse line) as [-> | ->];
    cbn; intuition discriminate.
Qed.

Lemma round_stops (movies : list Movie) (line : string) (rest : list string)
    (e : Session.ending) :
  (round movies line rest).2 = Stop e ->
  match e with
  | Session.Returned => (round movies line rest).1 = [Session.Goodbye]
  | Session.EndOfInput => ~ In Session.Goodbye (round movies line rest).1
  | Session.Uncaught e =>
      e = StatisticsError /\ movies = [] /\ (round movies line rest).1 = []
  end.
Proof.
  round_cases; cbn [fst snd]; intros [= <-]; trivial;
    rewrite ?in_app_iff;
    try (pose proof (@answer_no_farewell spec_float);
         pose proof (@answer_no_farewell Z);
         cbn; intuition (discriminate || eauto); fail).
  destruct movies as [|m movies].
  - cbn in *. split; [congruence|auto].
  - destruct (get_statistics_returns m movies). congruence.
Qed.

Lemma round_continues (movies : list Movie) (line : string)
    (rest rest' : list string) :
  (round movies line rest).2 = Continue rest' ->
  ~ In Session.Goodbye (round movies line rest).1.
Proof.
  round_cases; cbn [fst snd]; intros [= <-];
    rewrite ?in_app_iff;
    pose proof (@answer_no_farewell spec_float);
    pose proof (@answer_no_farewell Z);
    cbn; intuition (discriminate || eauto).
Qed.

(** How the menu ends: it returns only after showing the farewell, which
    is then the last thing shown; the only exception of the class that
    ends it is the [StatisticsError] of an empty catalog. *)
Lemma menu_ends (movies : list Movie) (inputs : list string) :
  match (Session.menu movies inputs).2 with
  | Session.Returned =>
      exists events,
        (Session.menu movies inputs).1 = events ++ [Session.Goodbye] /\
        ~ In Session.Goodbye events
  | Session.EndOfInput => ~ In Session.Goodbye (Session.menu movies inputs).1
  | Session.Uncaught e =>
      e = StatisticsError /\ movies = [] /\
      ~ In Session.Goodbye (Session.menu movies inputs).1
  end.
Proof.
  apply (menu_rounds movies
           (fun _ r =>
              match r.2 with
              | Session.Returned =>
                  exists events,
                    r.1 = events ++ [Session.Goodbye] /\
                    ~ In Session.Goodbye events
              | Session.EndOfInput => ~ In Session.Goodbye r.1
              | Session.Uncaught e =>
                  e = StatisticsError /\ movies = [] /\
                  ~ In Session.Goodbye r.1
              end)); cbn [fst snd].
  - auto.
  - intros line rest e E. apply round_stops in E.
    destruct e as [| |e]; trivial.
    + exists []. rewrite E. auto.
    + destruct E as (-> & -> & ->). auto.
  - intros line rest rest' E IH. apply round_continues in E.
    destruct (Session.menu movies rest').2 as [| |e].
    + destruct IH as (events & -> & Hno).
      exists ((round movies line rest).1 ++ events).
      rewrite app_assoc. split; trivial.
      rewrite in_app_iff. tauto.
    + rewrite in_app_iff. tauto.
    + destruct IH as (-> & -> & Hno). repeat split; trivial.
      rewrite in_app_iff. tauto.
Qed.

Lemma load_movies_raises (depth : nat) (w : World) (movies : list StoredRow)
    (e : exn) :
  (load_movies depth w movies).1.1 = Raise e -> e = RecursionError.
Proof.
  revert w. induction depth as [|depth IH]; intros w; cbn [load_movies].
  - cbn. congruence.
  - destruct (open_read w) as [[| |rows] w1].
    + destruct (create_sample_csv w1) as [[|] w2]; [apply IH|discriminate].
    + discriminate.
    + destruct (coerce (map store rows)). discriminate.
Qed.

Lemma load_movies_typed (depth : nat) (w w' : World)
    (movies movies' : list StoredRow) :
  load_movies depth w movies = (Return true, w', movies') ->
  exists typed,
    catalog movies' = Some typed /\ length typed = length movies'.
Proof.
  intros H.
  apply load_movies_outcome in H
    as (k & _ & _ & [(rows & _ & Hr & -> & _)|(Hr & _)]); [|congruence].
  assert (Hc : forallb coercible rows = true).
  { apply coerce_true. congruence. }
  destruct (catalog_coerced rows Hc) as (typed & Htyped & Hall).
  exists typed. rewrite (coerce_all rows Hc). cbn [snd]. split; trivial.
  apply Forall2_length in Hall. now rewrite length_map.
Qed.

(** X17: how a session ends.  [main] returns after a load that returned
    [False], having shown only that the load failed, or after choice 8,
    the farewell being the last thing shown.  Otherwise the input ended,
    or one of two exceptions did: the [RecursionError] of a load that
    exhausted the stack, or the [StatisticsError] of choice 6 on a table
    without rows.  On a table with rows nothing that is typed raises an
    exception of the class. *)
Theorem session_ends (depth : nat) (w : World) (inputs : list string) :
  let loaded := (load_movies depth w []).1.1 in
  let events := (Session.main depth w inputs).1.2 in
  match (Session.main depth w inputs).2 with
  | Session.Returned =>
      (loaded = Return false /\ events = [Session.LoadFailed])
      \/ (loaded = Return true /\
          exists before,
            events = before ++ [Session.Goodbye] /\
            ~ In Session.Goodbye before)
  | Session.EndOfInput =>
      loaded = Return true /\ ~ In Session.Goodbye events
  | Session.Uncaught e =>
      (e = RecursionError /\ loaded = Raise e /\ events = [])
      \/ (e = StatisticsError /\ loaded = Return true /\
          (load_movies depth w []).2 = [])
  end.
Proof.
  intros loaded events. subst loaded events. unfold Session.main.
  pose proof (load_movies_raises depth w []) as Hraise.
  destruct (load_movies depth w []) as [[r w'] movies] eqn:H.
  cbn [fst snd] in *.
  destruct r as [[|]|e]; cbn [fst snd].
  - destruct (load_movies_typed _ _ _ _ _ H) as (typed & -> & Hlen).
    cbn [fst snd]. pose proof (menu_ends typed inputs) as Hends.
    destruct (Session.menu typed inputs).2 as [| |e]; auto.
    destruct Hends as (-> & -> & _). right.
    destruct movies; [auto|discriminate].
  - auto.
  - left. rewrite (Hraise e eq_refl). auto.
Qed.

Lemma submseteq_filter {A : Type} (p : A -> bool) (l : list A) :
  List.filter p l ⊆+ l.
Proof. apply sublist_submseteq, filter_sublist. Qed.

Lemma submseteq_front (pool : list Movie) (n : Z) :
  slice_to (sorted Float.ltb Rating true pool) n ⊆+ pool.
Proof.
  transitivity (sorted Float.ltb Rating true pool).
  - apply sublist_submseteq. unfold slice_to.
    destruct (0 <=? n); apply sublist_take.
  - apply Permutation_submseteq, sorted_Permutation.
Qed.

Lemma round_shows (movies : list Movie) (line : string)
    (rest : list string) :
  Forall (fun l => l ⊆+ movies) (shown (round movies line rest).1).
Proof.
  assert (Htop : forall n g, get_top_movies movies n g ⊆+ movies).
  { intros n g. rewrite get_top_movies_scoped.
    etransitivity; [apply submseteq_front|].
    unfold scoped. destruct g as [[|c g]|]; trivial.
    apply submseteq_filter. }
  assert (Hrec : forall p, recommend_movies movies p ⊆+ movies).
  { intros p. rewrite recommend_movies_meets.
    etransitivity; [apply submseteq_front|apply submseteq_filter]. }
  assert (Hg : forall g, filter_by_genre movies g ⊆+ movies)
    by (intros; apply submseteq_filter).
  assert (Hy : forall a b, filter_by_year_range movies a b ⊆+ movies)
    by (intros; apply submseteq_filter).
  assert (Hr : forall r, filter_by_min_rating movies r ⊆+ movies)
    by (intros; apply submseteq_filter).
  round_cases; cbn [fst snd]; unfold shown; rewrite ?omap_app;
    repeat match goal with
           | |- context [(Session.answer ?parse ?line).2] =>
               destruct (answer_rejects parse line) as [-> | ->]
           end;
    cbn -[get_top_movies recommend_movies filter_by_genre
          filter_by_year_range filter_by_min_rating];
    repeat constructor; auto.
Qed.

(** X18: a session shows nothing but the catalog: every list of records
    displayed, after whichever choice, consists of records of the catalog,
    none more often than it occurs there. *)
Theorem session_shows_catalog_records (movies : list Movie)
    (inputs : list string) :
  Forall (fun l => l ⊆+ movies) (shown (Session.menu movies inputs).1).
Proof.
  apply (menu_rounds movies
           (fun _ r => Forall (fun l => l ⊆+ movies) (shown r.1)));
    cbn [fst snd].
  - constructor.
  - intros line rest e _. apply round_shows.
  - intros line rest rest' _ IH. unfold shown in *.
    rewrite omap_app. apply List.Forall_app. split; trivial.
    apply round_shows.
Qed.

Lemma answer_skipped {A : Type} (parse : string -> option A)
    (truthy : A -> bool) (line : string) :
  skipped parse truthy line ->
  given truthy (Session.answer parse line).1 = None.
Proof.
  unfold skipped, Session.answer.
  destruct (Str.truthy (Session.strip line)); trivial.
  destruct (parse (Session.strip line)); trivial.
  cbn. now intros ->.
Qed.

(** X19: in choice 4, a numeric answer that is blank, not a numeral, or
    zero sets no constraint.  When the three numeric answers are of this
    kind, the records displayed are the top five of the genre typed, and
    the top five of the catalog when the genre is blank too, after at
    most one rejection for each answer; the session goes on with the next
    line. *)
Theorem unusable_answers_are_skipped (movies : list Movie)
    (choice genre_input rating_input year_from year_to : string)
    (rest : list string) :
  Session.strip choice = "4" ->
  skipped Float.of_string Float.truthy rating_input ->
  skipped Int.of_string Int.truthy year_from ->
  skipped Int.of_string Int.truthy year_to ->
  exists rejected,
    Forall (eq Session.InvalidNumber) rejected
    /\ (length rejected <= 3)%nat
    /\ Session.menu movies
         (choice :: genre_input :: rating_input :: year_from :: year_to
            :: rest)
       = (rejected
            ++ Session.DisplayMovies
                 (get_top_movies movies 5 (Some (Session.strip genre_input)))
            :: (Session.menu movies rest).1,
          (Session.menu movies rest).2).
Proof.
  intros Hc Hr Hf Ht.
  apply answer_skipped in Hr, Hf, Ht.
  rewrite menu_round. unfold round. rewrite Hc. cbn [String.eqb Ascii.eqb].
  cbn [fst snd]. cbn [Bool.eqb].
  set (rating := Session.answer Float.of_string rating_input) in *.
  set (from := Session.answer Int.of_string year_from) in *.
  set (to := Session.answer Int.of_string year_to) in *.
  exists (rating.2 ++ from.2 ++ to.2). split; [|split].
  - subst rating from to.
    destruct (answer_rejects Float.of_string rating_input) as [-> | ->],
             (answer_rejects Int.of_string year_from) as [-> | ->],
             (answer_rejects Int.of_string year_to) as [-> | ->];
      cbn; repeat constructor.
  - subst rating from to. rewrite !length_app.
    destruct (answer_rejects Float.of_string rating_input) as [-> | ->],
             (answer_rejects Int.of_string year_from) as [-> | ->],
             (answer_rejects Int.of_string year_to) as [-> | ->];
      cbn; lia.
  - rewrite recommend_without_numbers by assumption.
    cbn [genre fst snd]. rewrite <- !app_assoc. cbn [app].
    assert (Hg : get_top_movies movies 5
                   (if Str.truthy (Session.strip genre_input)
                    then Some (Session.strip genre_input) else None)
                 = get_top_movies movies 5
                     (Some (Session.strip genre_input))).
    { unfold get_top_movies. now destruct (Session.strip genre_input). }
    now rewrite Hg.
Qed.

Lemma unusable_answers_on_seed :
  exists rejected,
    Forall (eq Session.InvalidNumber) rejected
    /\ (length rejected <= 3)%nat
    /\ Session.menu seed [" 4"; "drama"; "0"; "soon"; ""; "8"]
       = (rejected
            ++ Session.DisplayMovies
                 (get_top_movies seed 5 (Some (Session.strip "drama")))
            :: (Session.menu seed ["8"]).1,
          (Session.menu seed ["8"]).2).
Proof.
  apply (unusable_answers_are_skipped seed " 4" "drama" "0" "soon" "" ["8"]).
  - reflexivity.
  - vm_compute. reflexivity.
  - vm_compute. exact I.
  - vm_compute. exact I.
Defined.

(** X20: when the file holds a table whose rows are all coercible, also
    after missing-file conditions that were each followed by a successful
    bootstrap, [main] runs the menu on the records of that table: its rows
    in file order, with the ratings and years as numbers. *)
Theorem main_serves_the_table (k depth : nat) (rows : list CsvRow)
    (rs : list read_reply) (ws : list bool) (tr : list fs_op)
    (inputs : list string) :
  forallb coercible rows = true ->
  exists typed,
    Forall2 typed_row rows typed
    /\ Session.main (k + S depth)
         (mkWorld (repeat NoSuchFile k ++ Table rows :: rs)
                  (repeat true k ++ ws) tr) inputs
       = (mkWorld rs ws
            (tr ++ concat (repeat bootstrap_round k) ++ [OpenRead]),
          (Session.menu typed inputs).1, (Session.menu typed inputs).2).
Proof.
  intros Hc.
  destruct (catalog_coerced rows Hc) as (typed & Htyped & Hall).
  exists typed. split; trivial.
  unfold Session.main. rewrite load_after_bootstraps.
  cbn [load_movies]. unfold open_read. cbn [reads writes trace].
  rewrite (coerce_all rows Hc), Htyped.
  now rewrite <- app_assoc.
Qed.

Lemma main_on_first_run :
  exists typed,
    Forall2 typed_row (dict_rows sample_movies) typed
    /\ Session.main (1 + 1)
         (mkWorld (repeat NoSuchFile 1 ++ Table (dict_rows sample_movies) :: [])
                  (repeat true 1 ++ []) []) ["8"]
       = (mkWorld [] []
            ([] ++ concat (repeat bootstrap_round 1) ++ [OpenRead]),
          (Session.menu typed ["8"]).1, (Session.menu typed ["8"]).2).
Proof.
  apply (main_serves_the_table 1 0 (dict_rows sample_movies) [] [] [] ["8"]).
  vm_compute. reflexivity.
Defined.
